(** * nuanced_cv: claim validation and comparison detection

    A shallow embedding of [utils.py] (the claim validator
    [is_valid_claim], the comparison classifier [detect_comparison] and
    the category registry [CATEGORY_FUNCTIONS]) together with the
    properties its design document states about them.

    The linguistic annotator ([nlp = spacy.load(...)]) is an external
    collaborator: it is a variable of the development, and so is the
    table of word characters of the regular expression library ([\w] in
    the two mention patterns).  The part of the
    annotation library the code drives directly is modelled here: the
    sentence iterator of a document, the token-pattern [Matcher], and the
    string store of the shared vocabulary through which match labels
    travel ([matcher.add] interns a label, [doc.vocab.strings[match_id]]
    reads it back).

    Of the extraction script [nuanced_claim_extraction.py] the
    development embeds [strip_isitbullshit] with the title pattern of
    [main], the loop that collects the claims, and the choice of the
    categories; the data frames and the files it writes are left out. *)

From Stdlib Require Import ZArith QArith List String Ascii Bool Lia.
From Corelib Require Import PrimInt63 PrimFloat.
From stdpp Require Import base option list strings gmap.

Close Scope Q_scope.
Close Scope Z_scope.
Open Scope string_scope.
Open Scope list_scope.
Open Scope nat_scope.

(** ** Text: Python [str] values

    A text is a Rocq string holding the UTF-8 bytes of the [str] value.
    [lower] folds the ASCII letters and leaves every other byte as it
    is; [is_space] is [isspace] on the ASCII range. *)

Module Str.

Definition is_upper (c : ascii) : bool :=
  let n := nat_of_ascii c in (65 <=? n) && (n <=? 90).

(** [str.lower] on one character: [A-Z] go to [a-z], everything else
    stays. *)
Definition lower_char (c : ascii) : ascii :=
  if is_upper c then ascii_of_nat (nat_of_ascii c + 32) else c.

(** [s.lower()] *)
Fixpoint lower (s : string) : string :=
  match s with
  | EmptyString => EmptyString
  | String c s' => String (lower_char c) (lower s')
  end.

(** [s.count(c)] for a one-character needle. *)
Fixpoint count (c : ascii) (s : string) : nat :=
  match s with
  | EmptyString => 0
  | String a s' => (if Ascii.eqb a c then 1 else 0) + count c s'
  end.

(** [c.isspace()] on the ASCII range: space, tab, line feed, vertical
    tab, form feed, carriage return and the separators 28 to 31. *)
Definition is_space (c : ascii) : bool :=
  let n := nat_of_ascii c in
  (n =? 32) || ((9 <=? n) && (n <=? 13)) || ((28 <=? n) && (n <=? 31)).

Fixpoint all_space (s : string) : bool :=
  match s with
  | EmptyString => true
  | String c s' => is_space c && all_space s'
  end.

End Str.

(** ** Double-precision numbers: Python [float] values *)

Module Double.

Fixpoint int_of_pos (p : positive) : int :=
  match p with
  | xH => 1%uint63
  | xO q => PrimInt63.lsl (int_of_pos q) 1%uint63
  | xI q => PrimInt63.add (PrimInt63.lsl (int_of_pos q) 1%uint63) 1%uint63
  end.

(** The conversion of a length to a float, as true division does it;
    it is exact, lengths being far below 2^53. *)
Definition of_nat (n : nat) : float :=
  match N.of_nat n with
  | N0 => PrimFloat.of_uint63 0%uint63
  | Npos p => PrimFloat.of_uint63 (int_of_pos p)
  end.

(** The literal [0.6]: the double nearest to six tenths. *)
Definition six_tenths : float := 0x1.3333333333333p-1%float.

(** [x > y] *)
Definition gt (x y : float) : bool := PrimFloat.ltb y x.

End Double.

(** ** Code points

    The mention patterns read a text code point by code point.  A text
    is held as its UTF-8 bytes; [decode] gives back the code points of
    the [str] value. *)

Module Utf8.

(** [ord(c)] of an ASCII character. *)
Definition code (c : ascii) : N := N_of_ascii c.

(** A continuation byte, [10xxxxxx]. *)
Definition continuation (c : ascii) : bool :=
  let n := code c in (128 <=? n)%N && (n <? 192)%N.

(** The six payload bits of a continuation byte. *)
Definition payload (c : ascii) : N := (code c - 128)%N.

(** A byte that starts no well-formed sequence is kept as the code point
    [0xDC00 + byte]. *)
Definition stray (n : N) : N := (56320 + n)%N.

Fixpoint decode (s : string) : list N :=
  match s with
  | EmptyString => []
  | String a s1 =>
      let n := code a in
      if (n <? 128)%N then n :: decode s1
      else if (192 <=? n)%N && (n <? 224)%N then
        match s1 with
        | String b s2 =>
            if continuation b
            then ((n - 192) * 64 + payload b)%N :: decode s2
            else stray n :: decode s1
        | EmptyString => [stray n]
        end
      else if (224 <=? n)%N && (n <? 240)%N then
        match s1 with
        | String b (String c s3) =>
            if continuation b && continuation c
            then ((n - 224) * 4096 + payload b * 64 + payload c)%N :: decode s3
            else stray n :: decode s1
        | _ => stray n :: decode s1
        end
      else if (240 <=? n)%N && (n <? 248)%N then
        match s1 with
        | String b (String c (String d s4)) =>
            if continuation b && continuation c && continuation d
            then ((n - 240) * 262144 + payload b * 4096
                  + payload c * 64 + payload d)%N :: decode s4
            else stray n :: decode s1
        | _ => stray n :: decode s1
        end
      else stray n :: decode s1
  end.

End Utf8.

(** ** Regular expressions [u/\w+] and [r/\w+]

    The patterns are compiled for [str] input, so the class [\w] is the
    one of the regular expression library on all code points
    (alphanumerics of every script and the underscore).  That table is
    not part of this repository: the matching below takes it as the
    argument [word]. *)

Module Re.

(** The class [\w] restricted to the ASCII range: letters, digits,
    underscore. *)
Definition ascii_word (n : N) : bool :=
  ((48 <=? n)%N && (n <=? 57)%N) || ((65 <=? n)%N && (n <=? 90)%N)
  || ((97 <=? n)%N && (n <=? 122)%N) || (n =? 95)%N.

(** The greedy run [\w*] at the head of [cs]. *)
Fixpoint word_run (word : N -> bool) (cs : list N) : list N :=
  match cs with
  | [] => []
  | a :: cs' => if word a then a :: word_run word cs' else []
  end.

(** [re.compile(c + "/\w+").match(s)]: the pattern anchored at the head
    of [cs]; the result is the matched text ([Match.group(0)]). *)
Definition match_here (word : N -> bool) (c : N) (cs : list N) : option (list N) :=
  match cs with
  | a :: b :: rest =>
      if (a =? c)%N && (b =? Utf8.code "/")%N then
        match word_run word rest with
        | [] => None
        | w => Some (a :: b :: w)
        end
      else None
  | _ => None
  end.

(** [re.compile(c + "/\w+").search(s)]: the leftmost position where the
    pattern matches, with the matched text; [None] when there is none. *)
Fixpoint search_from (word : N -> bool) (c : N) (pos : nat) (cs : list N)
  : option (nat * list N) :=
  match match_here word c cs with
  | Some m => Some (pos, m)
  | None =>
      match cs with
      | [] => None
      | _ :: cs' => search_from word c (S pos) cs'
      end
  end.

Definition search (word : N -> bool) (c : N) (cs : list N) : option (nat * list N) :=
  search_from word c 0 cs.

End Re.

Definition user_pattern (word_char : N -> bool) (text : string)
  : option (nat * list N) :=
  Re.search word_char (Utf8.code "u") (Utf8.decode text).
Definition subreddit_pattern (word_char : N -> bool) (text : string)
  : option (nat * list N) :=
  Re.search word_char (Utf8.code "r") (Utf8.decode text).

(** ** Annotated text *)

(** A token of an annotated document, with the attributes the code
    reads.  [morph] is the list of [Field=Value] features; [sent_start]
    marks the first token of a sentence. *)
Module Token.

Record t := mk {
  text : string;
  pos_ : string;
  tag_ : string;
  dep_ : string;
  morph : list string;
  lemma_ : string;
  like_url : bool;
  is_alpha : bool;
  sent_start : bool
}.

(** [token.lower_], the lowercase form of the surface text. *)
Definition lower_ (token : t) : string := Str.lower (text token).

End Token.

Definition Span := list Token.t.
Definition Doc := list Token.t.

(** [doc.sents]: a new sentence starts at every token after the first
    whose [sent_start] flag is set; the last sentence runs to the end of
    the document; an empty document has no sentence. *)
Fixpoint split_sents (cur : Span) (toks : list Token.t) : list Span :=
  match toks with
  | [] => [cur]
  | t :: ts =>
      if Token.sent_start t then cur :: split_sents [t] ts
      else split_sents (cur ++ [t]) ts
  end.

Definition sents (doc : Doc) : list Span :=
  match doc with
  | [] => []
  | t :: ts => split_sents [t] ts
  end.

(** ** The token-pattern matcher *)

(** Token attributes a pattern can constrain. *)
Inductive Attr := ORTH | LOWER | POS | TAG | LEMMA.

(** The right-hand side of a constraint: a literal, [{"IN": [...]}] or
    [{"NOT_IN": [...]}]. *)
Inductive Value :=
| Is (s : string)
| IN (l : list string)
| NOT_IN (l : list string).

(** Quantifiers: none (exactly one token), ["*"] and ["?"]. *)
Inductive Op := OpOne | OpStar | OpOpt.

Record TokenSpec := mkSpec { constraints : list (Attr * Value); OP : Op }.

Definition Pattern := list TokenSpec.

Definition attr_of (a : Attr) (token : Token.t) : string :=
  match a with
  | ORTH => Token.text token
  | LOWER => Token.lower_ token
  | POS => Token.pos_ token
  | TAG => Token.tag_ token
  | LEMMA => Token.lemma_ token
  end.

Definition value_ok (v : Value) (s : string) : bool :=
  match v with
  | Is x => bool_decide (s = x)
  | IN l => bool_decide (s ∈ l)
  | NOT_IN l => negb (bool_decide (s ∈ l))
  end.

(** A token satisfies a specification when it satisfies every
    constraint of it. *)
Definition spec_ok (spec : TokenSpec) (token : Token.t) : bool :=
  forallb (fun '(a, v) => value_ok v (attr_of a token)) (constraints spec).

(** All the ways [p] matches a prefix of [toks]: the list of end
    positions, [pos] being the position of the head of [toks].  Every
    alternative of a quantifier is followed, as the matcher reports all
    matches and not only the longest. *)
Fixpoint match_ends (p : Pattern) (toks : list Token.t) (pos : nat) : list nat :=
  match p with
  | [] => [pos]
  | spec :: rest =>
      match OP spec with
      | OpOne =>
          match toks with
          | t :: ts => if spec_ok spec t then match_ends rest ts (S pos) else []
          | [] => []
          end
      | OpOpt =>
          match_ends rest toks pos ++
          match toks with
          | t :: ts => if spec_ok spec t then match_ends rest ts (S pos) else []
          | [] => []
          end
      | OpStar =>
          (fix star (toks : list Token.t) (pos : nat) : list nat :=
             match_ends rest toks pos ++
             match toks with
             | t :: ts => if spec_ok spec t then star ts (S pos) else []
             | [] => []
             end) toks pos
      end
  end.

(** The matches of a family of patterns in a span, as [(start, end)]
    pairs, by increasing start. *)
Fixpoint family_matches (pats : list Pattern) (toks : list Token.t) (start : nat)
  : list (nat * nat) :=
  match toks with
  | [] => []
  | _ :: ts =>
      flat_map (fun p => map (fun e => (start, e)) (match_ends p toks start)) pats
      ++ family_matches pats ts (S start)
  end.

(** A token can start a match of a family when the first entry of some
    pattern accepts it (or is quantified). *)
Definition may_start (pats : list Pattern) (token : Token.t) : bool :=
  existsb (fun p => match p with
                    | [] => true
                    | spec :: _ =>
                        match OP spec with
                        | OpOne => spec_ok spec token
                        | _ => true
                        end
                    end) pats.

(** A matcher holds its rules: match id and pattern family. *)
Record Matcher := mkMatcher { rules : list (N * list Pattern) }.

(** [matcher(span)]: the triples [(match_id, start, end)], positions
    relative to the span.  The callers below only test the list for
    emptiness and read the ids. *)
Definition Matcher_call (m : Matcher) (span : Span) : list (N * nat * nat) :=
  flat_map (fun '(key, pats) =>
              map (fun '(s, e) => (key, s, e)) (family_matches pats span 0))
           (rules m).

(** ** The shared vocabulary and the effects of a call *)

(** [nlp.vocab]: the string store maps the hash of an interned string to
    the string. *)
Record Vocab := mkVocab { strings : gmap N string }.

Inductive Exn := KeyError (key : N).

Inductive Result (A : Type) :=
| Ok (a : A)
| Raise (e : Exn).
Arguments Ok {A} a.
Arguments Raise {A} e.

(** A computation reads and writes the vocabulary and either returns or
    raises; the vocabulary keeps what was written before a raise. *)
Definition M (A : Type) : Type := Vocab -> Result A * Vocab.

Definition ret {A} (a : A) : M A := fun v => (Ok a, v).

Definition raise {A} (e : Exn) : M A := fun v => (Raise e, v).

Definition bind {A B} (m : M A) (k : A -> M B) : M B :=
  fun v =>
    match m v with
    | (Ok a, v') => k a v'
    | (Raise e, v') => (Raise e, v')
    end.

Notation "x <- c1 ;; c2" := (bind c1 (fun x => c2))
  (at level 100, c1 at next level, right associativity).

(** The value a computation returns from a given vocabulary. *)
Definition result_of {A} (m : M A) (v : Vocab) : Result A := fst (m v).

(** [[f(x) for x in l]] for an effectful [f]. *)
Fixpoint mapM {A B} (f : A -> M B) (l : list A) : M (list B) :=
  match l with
  | [] => ret []
  | x :: l' => y <- f x ;; ys <- mapM f l' ;; ret (y :: ys)
  end.

(** A dictionary with string keys, in insertion order; [dict_get] is
    [d[name]], with [None] for a missing key. *)
Fixpoint dict_get {V : Type} (name : string) (d : list (string * V)) : option V :=
  match d with
  | [] => None
  | (k, f) :: d' => if bool_decide (k = name) then Some f else dict_get name d'
  end.

Definition dict_keys {V : Type} (d : list (string * V)) : list string := map fst d.

(** ** [utils.py] *)

(** Pattern entries: [tok] is a plain entry, [tok_star] has ["OP": "*"],
    [tok_opt] has ["OP": "?"]. *)
Definition tok (cs : list (Attr * Value)) : TokenSpec := mkSpec cs OpOne.
Definition tok_star (cs : list (Attr * Value)) : TokenSpec := mkSpec cs OpStar.
Definition tok_opt (cs : list (Attr * Value)) : TokenSpec := mkSpec cs OpOpt.

(** Strict comparison: explicitly compares two things or groups. *)
Definition strict_patterns : list Pattern :=
  [ (* as ADJ as *)
    [tok [(LOWER, Is "as")]; tok_star [(POS, Is "ADV")]; tok [(POS, Is "ADJ")];
     tok [(LOWER, Is "as")]];
    (* JJR than *)
    [tok [(TAG, Is "JJR")]; tok [(LOWER, Is "than")]];
    (* RBR ADJ/ADV than *)
    [tok [(TAG, Is "RBR")]; tok_star [(TAG, Is "RB")]; tok [(TAG, IN ["JJ"; "RB"])];
     tok [(LOWER, Is "than")]];
    (* more/less NOUN than *)
    [tok [(LOWER, IN ["more"; "less"])]; tok [(POS, Is "NOUN")]; tok [(LOWER, Is "than")]];
    (* more than *)
    [tok [(LOWER, IN ["more"; "less"])]; tok [(LOWER, Is "than")]];
    (* compared ADP *)
    [tok [(LEMMA, Is "compare"); (TAG, Is "VBN")]; tok [(POS, Is "ADP")]] ].

(** The first implicit pattern: a comparative or superlative on its
    own, avoiding "most people". *)
Definition standalone_comparative : Pattern :=
  [tok [(TAG, IN ["JJR"; "JJS"]); (LOWER, NOT_IN ["most"; "least"])]].

Definition implicit_patterns : list Pattern :=
  [ standalone_comparative;
    [tok [(TAG, Is "JJR")]; tok_opt [(POS, Is "NOUN")]];
    [tok [(LOWER, IN ["more"; "less"])]; tok [(POS, Is "NOUN")]];
    [tok [(LOWER, IN ["more"; "less"])]; tok_star [(POS, Is "ADV")]; tok [(POS, Is "ADJ")]];
    [tok [(TAG, Is "RBS")]; tok_star [(POS, Is "ADV")]; tok [(POS, Is "ADJ")]] ].

(** The test of the inner loop of [check_root_verb]. *)
Definition finite_root_verb (token : Token.t) : bool :=
  bool_decide (Token.dep_ token = "ROOT")
  && bool_decide (Token.pos_ token ∈ ["VERB"; "AUX"])
  && bool_decide ("VerbForm=Fin" ∈ Token.morph token).

Definition check_root_verb (doc : Doc) : bool :=
  existsb (fun sent => existsb finite_root_verb sent) (sents doc).

(** [len(alpha_tokens) / max(1, len(doc))]: true division, in double
    precision. *)
Definition frac_alpha (doc : Doc) : float :=
  PrimFloat.div
    (Double.of_nat (length (filter (fun t => Token.is_alpha t = true) doc)))
    (Double.of_nat (Nat.max 1 (length doc))).

(** Interning [s] under its hash: a slot already taken is left as it
    is. *)
Definition intern (hash_string : string -> N) (s : string) (v : Vocab) : Vocab :=
  let key := hash_string s in
  match strings v !! key with
  | Some _ => v
  | None => mkVocab (<[key := s]> (strings v))
  end.

Section Pipeline.

(** The class [\w] of the regular expression library, as a table on
    code points. *)
Variable word_char : N -> bool.

(** The hash under which the string store files a string. *)
Variable hash_string : string -> N.

(** The annotator, [nlp(text)]: it returns the annotated document and
    may intern strings in the shared vocabulary. *)
Variable nlp : string -> Vocab -> Doc * Vocab.

Definition annotate (text : string) : M Doc :=
  fun v => let (doc, v') := nlp text v in (Ok doc, v').

(** [strings.add(s)]: the hash of [s]; [s] is stored under it unless
    the slot is taken. *)
Definition StringStore_add (s : string) : M N :=
  fun v => (Ok (hash_string s), intern hash_string s v).

(** [strings[key]] for a hash [key]. *)
Definition StringStore_getitem (key : N) : M string :=
  fun v =>
    match strings v !! key with
    | Some s => (Ok s, v)
    | None => raise (KeyError key) v
    end.

(** [Matcher(nlp.vocab)] *)
Definition Matcher_new : Matcher := mkMatcher [].

(** [matcher.add(key, patterns)] *)
Definition Matcher_add (key : string) (pats : list Pattern) (m : Matcher) : M Matcher :=
  match_id <- StringStore_add key ;;
  ret (mkMatcher (rules m ++ [(match_id, pats)])).

Definition is_valid_claim (text : string) : M bool :=
  doc <- annotate text ;;
  let has_verb := check_root_verb doc in
  let no_url := negb (existsb Token.like_url doc) in
  let no_scam :=
    negb (existsb (fun token => bool_decide (Token.text token ∈ ["scam"; "legit"])) doc) in
  let no_mentions :=
    negb (bool_decide (is_Some (user_pattern word_char text))
          || bool_decide (is_Some (subreddit_pattern word_char text))) in
  let no_short_claims := 3 <=? length doc in
  let not_more_than_one_intj :=
    (Str.count "!" text <=? 1) && (length (sents doc) =? 1) in
  let mostly_alpha := Double.gt (frac_alpha doc) Double.six_tenths in
  ret (forallb id [has_verb; no_url; no_scam; no_mentions; no_short_claims;
                   not_more_than_one_intj; mostly_alpha]).

(** The body of the loop over [doc.sents] in [detect_comparison]. *)
Fixpoint scan_sents (matcher : Matcher) (ss : list Span) : M (bool * string) :=
  match ss with
  | [] => ret (false, "")
  | sent :: rest =>
      matches <- mapM (fun '(match_id, start, stop) =>
                         name <- StringStore_getitem match_id ;;
                         ret (name, start, stop))
                      (Matcher_call matcher sent) ;;
      match matches with
      | [] => scan_sents matcher rest
      | _ =>
          let strict_matches :=
            filter (fun m => m.1.1 = "STRICT_COMPARISON") matches in
          let implicit_matches :=
            filter (fun m => m.1.1 = "IMPLICIT_COMPARISON") matches in
          match strict_matches, implicit_matches with
          | _ :: _, _ => ret (true, "STRICT_COMPARISON")
          | [], _ :: _ => ret (true, "IMPLICIT_COMPARISON")
          | [], [] => scan_sents matcher rest
          end
      end
  end.

Definition detect_comparison (text : string) : M (bool * string) :=
  doc <- annotate text ;;
  matcher <- ret Matcher_new ;;
  matcher <- Matcher_add "STRICT_COMPARISON" strict_patterns matcher ;;
  matcher <- Matcher_add "IMPLICIT_COMPARISON" implicit_patterns matcher ;;
  scan_sents matcher (sents doc).

Definition detect_other (text : string) : M (bool * string) :=
  ret (false, "").

(** The category function mapping, in the order of the dictionary. *)
Definition CATEGORY_FUNCTIONS : list (string * (string -> M (bool * string))) :=
  [ ("comparison", detect_comparison);
    ("other", detect_other) ].

(** [CATEGORY_FUNCTIONS[name]] *)
Definition category (name : string) : option (string -> M (bool * string)) :=
  dict_get name CATEGORY_FUNCTIONS.

End Pipeline.

(** ** The design document's vocabulary

    The predicates below restate, in the words of the design document,
    what the functions above compute; the theorems relate the two. *)

Module Spec.

(** Predicate 1: some sentence has a ROOT token with coarse POS VERB or
    AUX whose morphology marks it finite. *)
Definition has_finite_root_verb (doc : Doc) : Prop :=
  exists sent token,
    sent ∈ sents doc /\ token ∈ sent /\
    Token.dep_ token = "ROOT" /\
    (Token.pos_ token = "VERB" \/ Token.pos_ token = "AUX") /\
    "VerbForm=Fin" ∈ Token.morph token.

(** The ROOT tokens of a sentence. *)
Definition root_tokens (sent : Span) : list Token.t :=
  filter (fun token => Token.dep_ token = "ROOT") sent.

(** The token is a finite VERB or AUX. *)
Definition finite_verb (token : Token.t) : Prop :=
  (Token.pos_ token = "VERB" \/ Token.pos_ token = "AUX") /\
  "VerbForm=Fin" ∈ Token.morph token.

(** The sentence breaks the one-ROOT-per-sentence invariant: it has no
    ROOT token, several ROOT tokens, or a ROOT token that is not a finite
    VERB or AUX. *)
Definition violates_root_invariant (sent : Span) : Prop :=
  length (root_tokens sent) = 0 \/
  1 < length (root_tokens sent) \/
  (exists token, token ∈ root_tokens sent /\ ~ finite_verb token).

(** Predicate 2: no token looks like a URL. *)
Definition no_url (doc : Doc) : Prop :=
  forall token, token ∈ doc -> Token.like_url token = false.

(** Predicate 3: no token's surface text is "scam" or "legit". *)
Definition no_banned_items (doc : Doc) : Prop :=
  forall token, token ∈ doc ->
    Token.text token <> "scam" /\ Token.text token <> "legit".

(** The code points [cs] contain [c], a slash and at least one word
    character. *)
Definition mention_in (word_char : N -> bool) (c : N) (cs : list N) : Prop :=
  exists pre w post,
    cs = pre ++ c :: Utf8.code "/" :: w ++ post /\
    w <> [] /\ Forall (fun a => word_char a = true) w.

(** The text contains [c], a slash and at least one word character. *)
Definition mention (word_char : N -> bool) (c : ascii) (text : string) : Prop :=
  mention_in word_char (Utf8.code c) (Utf8.decode text).

(** Predicate 4: no substring [u/<word-chars>] or [r/<word-chars>]. *)
Definition no_mentions (word_char : N -> bool) (text : string) : Prop :=
  ~ mention word_char "u" text /\ ~ mention word_char "r" text.

(** Predicate 5: at least three tokens. *)
Definition min_length (doc : Doc) : Prop := 3 <= length doc.

(** Predicate 6: at most one exclamation mark, exactly one sentence. *)
Definition single_sentence_low_exclamation (text : string) (doc : Doc) : Prop :=
  Str.count "!" text <= 1 /\ length (sents doc) = 1.

Definition alpha_count (doc : Doc) : nat :=
  length (filter (fun t => Token.is_alpha t = true) doc).

(** Predicate 7: the number of alphabetic tokens divided by
    [max(1, tokens)] is greater than 0.6, in the arithmetic of the
    program (double precision). *)
Definition mostly_alphabetic (doc : Doc) : Prop :=
  Double.gt (PrimFloat.div (Double.of_nat (alpha_count doc))
                           (Double.of_nat (Nat.max 1 (length doc))))
            Double.six_tenths = true.

(** The same comparison on exact fractions. *)
Definition share_above_six_tenths (doc : Doc) : Prop :=
  (0.6 < inject_Z (Z.of_nat (alpha_count doc))
         / inject_Z (Z.of_nat (Nat.max 1 (length doc))))%Q.

(** The matches of the two pattern families in a sentence. *)
Definition strict_hits (sent : Span) : list (nat * nat) :=
  family_matches strict_patterns sent 0.

Definition implicit_hits (sent : Span) : list (nat * nat) :=
  family_matches implicit_patterns sent 0.

Definition no_match (sent : Span) : Prop :=
  strict_hits sent = [] /\ implicit_hits sent = [].

(** What one sentence decides: strict beats implicit; [None] when the
    sentence has no match. *)
Definition sentence_label (sent : Span) : option string :=
  match strict_hits sent, implicit_hits sent with
  | _ :: _, _ => Some "STRICT_COMPARISON"
  | [], _ :: _ => Some "IMPLICIT_COMPARISON"
  | [], [] => None
  end.

(** The scan: the first sentence with a label decides. *)
Fixpoint first_label (ss : list Span) : bool * string :=
  match ss with
  | [] => (false, "")
  | sent :: rest =>
      match sentence_label sent with
      | Some l => (true, l)
      | None => first_label rest
      end
  end.

End Spec.

(** ** Double precision against exact fractions *)

(** Whether [a / max(1, n) > 0.6] in double precision and [a] over
    [max(1, n)] above six tenths as a fraction agree. *)
Definition share_agrees (a n : nat) : bool :=
  Bool.eqb (Double.gt (PrimFloat.div (Double.of_nat a) (Double.of_nat (Nat.max 1 n)))
                      Double.six_tenths)
           (negb (Qle_bool (Z.of_nat a # Pos.of_nat (Nat.max 1 n)) (6 # 10))).

(** The number of tokens up to which the agreement is checked. *)
Definition checked_tokens : nat := 300.

(** ** Assumptions on the collaborators *)

(** Every stored string sits under its own hash. *)
Definition store_ok (hash_string : string -> N) (v : Vocab) : Prop :=
  forall key s, strings v !! key = Some s -> hash_string s = key.

(** No other string hashes to the hash of [label]. *)
Definition collision_free (hash_string : string -> N) (label : string) : Prop :=
  forall s, hash_string s = hash_string label -> s = label.

(** The annotator only interns strings. *)
Definition keeps_store (hash_string : string -> N)
    (nlp : string -> Vocab -> Doc * Vocab) : Prop :=
  forall text v, store_ok hash_string v -> store_ok hash_string (nlp text v).2.


(** A whitespace token, as the tokenizer emits for a run of whitespace. *)
Definition space_token (token : Token.t) : Prop :=
  Str.all_space (Token.text token) = true /\
  Token.pos_ token = "SPACE" /\ Token.tag_ token = "_SP" /\
  Token.is_alpha token = false.

(** The annotator on degenerate input: no token for the empty text,
    whitespace tokens only for a whitespace-only text. *)
Definition blank_input_ok (nlp : string -> Vocab -> Doc * Vocab) : Prop :=
  (forall v, (nlp "" v).1 = []) /\
  (forall text v, Str.all_space text = true -> Forall space_token (nlp text v).1).

(** ** Capitalization variants *)







(** ** Sample annotations

    Hand-written annotations of a few texts, in the tagging scheme of the
    English pipeline, used to run the functions on concrete input. *)

Module Samples.

Definition tk (text pos tag dep lemma : string) : Token.t :=
  Token.mk text pos tag dep [] lemma false true false.

Definition finite (t : Token.t) : Token.t :=
  Token.mk (Token.text t) (Token.pos_ t) (Token.tag_ t) (Token.dep_ t)
           ["Mood=Ind"; "VerbForm=Fin"] (Token.lemma_ t)
           (Token.like_url t) (Token.is_alpha t) (Token.sent_start t).

Definition symbol (t : Token.t) : Token.t :=
  Token.mk (Token.text t) (Token.pos_ t) (Token.tag_ t) (Token.dep_ t)
           (Token.morph t) (Token.lemma_ t) (Token.like_url t) false
           (Token.sent_start t).

Definition starts (t : Token.t) : Token.t :=
  Token.mk (Token.text t) (Token.pos_ t) (Token.tag_ t) (Token.dep_ t)
           (Token.morph t) (Token.lemma_ t) (Token.like_url t)
           (Token.is_alpha t) true.

Definition period : Token.t := symbol (tk "." "PUNCT" "." "punct" ".").
Definition bang : Token.t := symbol (tk "!" "PUNCT" "." "punct" "!").

Definition space (text : string) : Token.t :=
  symbol (tk text "SPACE" "_SP" "dep" text).

Definition sky_is_blue : Doc :=
  [ starts (tk "The" "DET" "DT" "det" "the"); tk "sky" "NOUN" "NN" "nsubj" "sky";
    finite (tk "is" "AUX" "VBZ" "ROOT" "be"); tk "blue" "ADJ" "JJ" "acomp" "blue";
    period ].

Definition sky_is_blue_bang : Doc :=
  [ starts (tk "The" "DET" "DT" "det" "the"); tk "sky" "NOUN" "NN" "nsubj" "sky";
    finite (tk "is" "AUX" "VBZ" "ROOT" "be"); tk "blue" "ADJ" "JJ" "acomp" "blue";
    bang ].

Definition sky_is_blue_bang_bang : Doc :=
  [ starts (tk "The" "DET" "DT" "det" "the"); tk "sky" "NOUN" "NN" "nsubj" "sky";
    finite (tk "is" "AUX" "VBZ" "ROOT" "be"); tk "blue" "ADJ" "JJ" "acomp" "blue";
    bang; bang ].

Definition as_great_as : Doc :=
  [ starts (tk "This" "PRON" "DT" "nsubj" "this");
    finite (tk "is" "AUX" "VBZ" "ROOT" "be"); tk "as" "ADV" "RB" "advmod" "as";
    tk "great" "ADJ" "JJ" "acomp" "great"; tk "as" "ADP" "IN" "prep" "as";
    tk "that" "PRON" "DT" "pobj" "that"; period ].

Definition best_idea : Doc :=
  [ starts (tk "This" "PRON" "DT" "nsubj" "this");
    finite (tk "is" "AUX" "VBZ" "ROOT" "be"); tk "the" "DET" "DT" "det" "the";
    tk "best" "ADJ" "JJS" "amod" "good"; tk "idea" "NOUN" "NN" "attr" "idea";
    tk "ever" "ADV" "RB" "advmod" "ever"; period ].

Definition most_people_agree : Doc :=
  [ starts (tk "Most" "ADJ" "JJS" "amod" "most");
    tk "people" "NOUN" "NNS" "nsubj" "people";
    finite (tk "agree" "VERB" "VBP" "ROOT" "agree"); period ].

Definition More_money : Doc :=
  [ starts (tk "More" "ADJ" "JJR" "amod" "more"); tk "money" "NOUN" "NN" "ROOT" "money";
    tk "than" "ADP" "IN" "prep" "than"; tk "sense" "NOUN" "NN" "pobj" "sense" ].

Definition more_money : Doc :=
  [ starts (tk "more" "ADJ" "JJR" "amod" "more"); tk "money" "NOUN" "NN" "ROOT" "money";
    tk "than" "ADP" "IN" "prep" "than"; tk "sense" "NOUN" "NN" "pobj" "sense" ].

Definition think_r_science : Doc :=
  [ starts (tk "I" "PRON" "PRP" "nsubj" "I");
    finite (tk "think" "VERB" "VBP" "ROOT" "think");
    tk "r" "NOUN" "NN" "nmod" "r"; symbol (tk "/" "SYM" "SYM" "punct" "/");
    tk "science" "NOUN" "NN" "nsubj" "science";
    finite (tk "is" "AUX" "VBZ" "ccomp" "be"); tk "great" "ADJ" "JJ" "acomp" "great" ].

Definition asked_U_someone : Doc :=
  [ starts (tk "He" "PRON" "PRP" "nsubj" "he");
    finite (tk "asked" "VERB" "VBD" "ROOT" "ask");
    tk "U" "NOUN" "NN" "nmod" "u"; symbol (tk "/" "SYM" "SYM" "punct" "/");
    tk "someone" "PRON" "NN" "dobj" "someone" ].

(** A mention whose name has letters outside ASCII. *)
Definition like_r_ete : Doc :=
  [ starts (tk "I" "PRON" "PRP" "nsubj" "I");
    finite (tk "like" "VERB" "VBP" "ROOT" "like");
    tk "r" "NOUN" "NN" "nmod" "r"; symbol (tk "/" "SYM" "SYM" "punct" "/");
    tk "été" "NOUN" "NN" "dobj" "été";
    tk "a" "DET" "DT" "det" "a"; tk "lot" "NOUN" "NN" "npadvmod" "lot" ].

(** Two sentences; the comparison is in the second. *)
Definition blue_then_better : Doc :=
  sky_is_blue ++
  [ starts (tk "It" "PRON" "PRP" "nsubj" "it");
    finite (tk "is" "AUX" "VBZ" "ROOT" "be"); tk "better" "ADJ" "JJR" "acomp" "good";
    tk "than" "ADP" "IN" "prep" "than"; tk "rain" "NOUN" "NN" "pobj" "rain"; period ].

(** An implicit match in the first sentence, a strict one in the
    second. *)
Definition best_then_better : Doc :=
  best_idea ++
  [ starts (tk "It" "PRON" "PRP" "nsubj" "it");
    finite (tk "is" "AUX" "VBZ" "ROOT" "be"); tk "better" "ADJ" "JJR" "acomp" "good";
    tk "than" "ADP" "IN" "prep" "than"; tk "rain" "NOUN" "NN" "pobj" "rain"; period ].

(** A sentence with two ROOT tokens, one of them a finite verb. *)
Definition two_roots : Doc :=
  [ starts (tk "Dogs" "NOUN" "NNS" "ROOT" "dog");
    finite (tk "bark" "VERB" "VBP" "ROOT" "bark"); period ].

(** A sentence without a ROOT token. *)
Definition no_root : Doc :=
  [ starts (tk "Dogs" "NOUN" "NNS" "nsubj" "dog");
    finite (tk "bark" "VERB" "VBP" "dep" "bark"); period ].

Definition table : list (string * Doc) :=
  [ ("The sky is blue.", sky_is_blue);
    ("The sky is blue!", sky_is_blue_bang);
    ("The sky is blue!!", sky_is_blue_bang_bang);
    ("This is as great as that.", as_great_as);
    ("This is the best idea ever.", best_idea);
    ("Most people agree.", most_people_agree);
    ("More money than sense", More_money);
    ("more money than sense", more_money);
    ("I think r/science is great", think_r_science);
    ("He asked U/someone", asked_U_someone);
    ("I like r/été a lot", like_r_ete);
    ("The sky is blue. It is better than rain.", blue_then_better);
    ("This is the best idea ever. It is better than rain.", best_then_better) ].

(** The sample annotation of a text: nothing for the empty text, one
    whitespace token for a whitespace-only text, the table entry for a
    text of the table, and one unclassified token otherwise. *)
Definition annotation (text : string) : Doc :=
  if Str.all_space text then
    match text with
    | "" => []
    | _ => [starts (space text)]
    end
  else
    match dict_get text table with
    | Some doc => doc
    | None => [starts (symbol (tk text "X" "XX" "ROOT" text))]
    end.

(** A collision-free hash: the code of the string. *)
Definition hash_string (s : string) : N := Npos (encode s).

(** The class [\w] on the code points below 256: the ASCII letters,
    digits and underscore, and the letters and numerals of Latin-1. *)
Definition word_char (n : N) : bool :=
  Re.ascii_word n
  || bool_decide (n ∈ [170; 178; 179; 181; 185; 186; 188; 189; 190]%N)
  || ((192 <=? n)%N && (n <=? 255)%N && negb (n =? 215)%N && negb (n =? 247)%N).

(** The sample annotator interns the surface text of every token. *)
Definition nlp (text : string) (v : Vocab) : Doc * Vocab :=
  let doc := annotation text in
  (doc, foldr (fun token => intern hash_string (Token.text token)) v doc).

Definition empty_vocab : Vocab := mkVocab ∅.

End Samples.

(** ** [nuanced_claim_extraction.py]: text helpers *)

Module Text.

Definition is_lower (c : ascii) : bool :=
  let n := nat_of_ascii c in (97 <=? n) && (n <=? 122).

(** [str.upper] on one character of the ASCII range. *)
Definition upper_char (c : ascii) : ascii :=
  if is_lower c then ascii_of_nat (nat_of_ascii c - 32) else c.

(** [s.lstrip()]: leading whitespace removed.  Whitespace is the ASCII
    one, [Str.is_space]; the characters outside ASCII that Python strips
    as well (the no-break space and the like) are left in place here. *)
Fixpoint lstrip (s : string) : string :=
  match s with
  | EmptyString => EmptyString
  | String c s' => if Str.is_space c then lstrip s' else s
  end.

(** [s.rstrip()]: trailing whitespace removed. *)
Fixpoint rstrip (s : string) : string :=
  match s with
  | EmptyString => EmptyString
  | String c s' =>
      match rstrip s' with
      | EmptyString => if Str.is_space c then EmptyString else String c EmptyString
      | r => String c r
      end
  end.

(** [s.strip()] *)
Definition strip (s : string) : string := rstrip (lstrip s).




End Text.

(** ** Regular expressions with backtracking

    The constructs the title pattern is written with.  A match is
    attempted the way the backtracking engine does it: [run] lists the
    states a pattern can end in, by decreasing priority (greedy
    quantifiers try the longer match first, alternatives go left to
    right), so the head of the list is the match the engine reports.  An
    iteration of a repetition has to consume a character; the repeated
    groups of the title pattern always do.

    The text is read byte by byte and IGNORECASE folds the ASCII
    letters.  The few letters outside ASCII that the library also takes
    for "i", "s" or "k" under IGNORECASE (the dotted capital and the
    dotless small i, the long s, the Kelvin sign) are not folded
    here. *)

Module Regex.

Inductive t :=
| Eps
| Bol                                        (* ^ *)
| Lit (c : ascii)
| Class (chars : list ascii) (space : bool)  (* [...], with \s when [space] *)
| Seq (r1 r2 : t)
| Alt (r1 r2 : t)                            (* r1|r2 *)
| Opt (r : t)                                (* r? *)
| Star (r : t)                               (* r* *)
| Plus (r : t).                              (* r+ *)

(** A compiled pattern: the expression and the IGNORECASE flag. *)
Record compiled := compile { regex : t; ignorecase : bool }.

(** A state of a match attempt: the position in the text and the text
    from there on. *)
Definition State : Type := nat * string.

(** A literal against a character of the text; under IGNORECASE the two
    are compared in lowercase. *)
Definition lit_ok (ic : bool) (c a : ascii) : bool :=
  if ic then Ascii.eqb (Str.lower_char a) (Str.lower_char c) else Ascii.eqb a c.

Definition class_ok (ic : bool) (chars : list ascii) (space : bool) (a : ascii) : bool :=
  existsb (fun c => lit_ok ic c a) chars || (space && Str.is_space a).

(** Greedy repetition of [step], at most [fuel] times. *)
Fixpoint iterate (step : State -> list State) (fuel : nat) (st : State) : list State :=
  match fuel with
  | O => [st]
  | S fuel' =>
      flat_map (fun st' => if st'.1 <=? st.1 then [] else iterate step fuel' st')
               (step st)
      ++ [st]
  end.

Fixpoint run (ic : bool) (r : t) (st : State) : list State :=
  match r with
  | Eps => [st]
  | Bol => if st.1 =? 0 then [st] else []
  | Lit c =>
      match st.2 with
      | String a s' => if lit_ok ic c a then [(S st.1, s')] else []
      | EmptyString => []
      end
  | Class chars space =>
      match st.2 with
      | String a s' => if class_ok ic chars space a then [(S st.1, s')] else []
      | EmptyString => []
      end
  | Seq r1 r2 => flat_map (run ic r2) (run ic r1 st)
  | Alt r1 r2 => run ic r1 st ++ run ic r2 st
  | Opt r' => run ic r' st ++ [st]
  | Star r' => iterate (run ic r') (String.length st.2) st
  | Plus r' => flat_map (iterate (run ic r') (String.length st.2)) (run ic r' st)
  end.

(** The end of the match the engine finds at [pos], empty matches left
    aside (replacing one by the empty string changes nothing). *)
Definition match_end (p : compiled) (pos : nat) (s : string) : option nat :=
  match List.find (fun st : State => pos <? st.1) (run (ignorecase p) (regex p) (pos, s)) with
  | Some st => Some st.1
  | None => None
  end.

(** [pattern.sub('', text)] from position [pos] on, [skip] characters
    of a match still to be dropped: the matches are found left to right
    and do not overlap; what they cover is removed. *)
Fixpoint sub_from (p : compiled) (pos skip : nat) (s : string) : string :=
  match s with
  | EmptyString => EmptyString
  | String a s' =>
      match skip with
      | S k => sub_from p (S pos) k s'
      | O =>
          match match_end p pos s with
          | Some stop => sub_from p (S pos) (stop - S pos) s'
          | None => String a (sub_from p (S pos) 0 s')
          end
      end
  end.

Definition sub (p : compiled) (text : string) : string := sub_from p 0 0 text.

(** The literal word [w]. *)
Fixpoint word (w : string) : t :=
  match w with
  | EmptyString => Eps
  | String c EmptyString => Lit c
  | String c w' => Seq (Lit c) (word w')
  end.



End Regex.

(** Two states at the same position whose texts differ at most in
    capitalization. *)
Definition same_up_to_case (st1 st2 : Regex.State) : Prop :=
  st1.1 = st2.1 /\ Str.lower st1.2 = Str.lower st2.2.

(** ** [nuanced_claim_extraction.py] *)

Definition strip_isitbullshit (pattern : Regex.compiled) (text : string) : string :=
  Text.strip (Regex.sub pattern text).

(** The pattern compiled in [main], with [re.IGNORECASE]:
    an optional [[Meta]] or opening quote, then one or more boilerplate
    phrases, each followed by punctuation and whitespace. *)
Definition title_phrases : Regex.t :=
  Regex.Alt
    (Regex.Seq (Regex.Opt (Regex.word "is"))
       (Regex.Seq (Regex.Opt (Regex.Class [] true))
          (Regex.Seq (Regex.word "it")
             (Regex.Seq (Regex.Opt (Regex.Class [] true))
                (Regex.Seq (Regex.word "bul")
                   (Regex.Seq (Regex.Plus (Regex.Lit "l"))
                      (Regex.Seq (Regex.Star (Regex.Lit "s")) (Regex.word "hit"))))))))
    (Regex.Alt (Regex.word "IIBS")
       (Regex.Alt (Regex.word "IIB")
          (Regex.Alt (Regex.word "IsItBS")
             (Regex.Alt (Regex.word "ItIsBullshit") (Regex.word "bullshit"))))).

Definition title_regex : Regex.t :=
  Regex.Seq Regex.Bol
    (Regex.Seq
       (Regex.Opt (Regex.Alt (Regex.Seq (Regex.word "[Meta]")
                                        (Regex.Star (Regex.Class [] true)))
                             (Regex.Lit "034")))
       (Regex.Plus
          (Regex.Seq title_phrases
             (Regex.Star (Regex.Class ["."; ":"; "?"; "!"; "034"]%char true))))).

Definition title_pattern : Regex.compiled := Regex.compile title_regex true.

(** A conversation of the corpus: its id and the title in its
    metadata. *)
Module Conversation.

Record t := mk { id : string; title : string }.

End Conversation.


(** What [main] does with the [--category] argument. *)
Inductive Selection (A : Type) :=
| Rejected                          (* the parser rejects the value *)
| MissingKey                        (* the registry raises KeyError *)
| Selected (l : list (string * A)).  (* the categories that are extracted *)
Arguments Rejected {A}.
Arguments MissingKey {A}.
Arguments Selected {A} l.

(** The parser accepts the keys of the registry and "all"; a category
    other than "all" is looked up in the registry, "all" takes every
    entry in order. *)
Definition select_categories {A : Type} (registry : list (string * A)) (category : string)
  : Selection A :=
  if bool_decide (category ∈ dict_keys registry ++ ["all"]) then
    if bool_decide (category <> "all") then
      match dict_get category registry with
      | Some pattern_func => Selected [(category, pattern_func)]
      | None => MissingKey
      end
    else Selected registry
  else Rejected.

(** ** Tokens that can start a comparison pattern *)

(** The token is tagged as a comparative or superlative, reads "as",
    "more" or "less", or is the past participle of "compare". *)
Definition comparison_trigger (token : Token.t) : bool :=
  bool_decide (Token.tag_ token ∈ ["JJR"; "JJS"; "RBR"; "RBS"])
  || bool_decide (Token.lower_ token ∈ ["as"; "more"; "less"])
  || (bool_decide (Token.lemma_ token = "compare") && bool_decide (Token.tag_ token = "VBN")).

(** * Properties *)

(** ** Text and regular expressions *)


(** Characters of two, three and four bytes. *)
Example decode_samples :
  Utf8.decode "aé日😀" = [97; 233; 26085; 128512]%N.
Proof. reflexivity. Qed.

(** On ASCII text the code points are the bytes. *)
Lemma decode_ascii s :
  Forall (fun c => (Utf8.code c < 128)%N) (list_ascii_of_string s) ->
  Utf8.decode s = map Utf8.code (list_ascii_of_string s).
Proof.
  induction s as [|a s IH]; [done|]. cbn [list_ascii_of_string map Utf8.decode].
  intros [Ha Hs]%Forall_cons. apply N.ltb_lt in Ha. rewrite Ha.
  by rewrite IH.
Qed.

Lemma word_run_nonempty word cs :
  Re.word_run word cs <> [] ->
  exists a cs', cs = a :: cs' /\ word a = true.
Proof.
  destruct cs as [|a cs']; simpl; [congruence|].
  destruct (word a) eqn:Ha; [eauto | congruence].
Qed.

Lemma match_here_mention word c cs m :
  Re.match_here word c cs = Some m -> Spec.mention_in word c cs.
Proof.
  unfold Re.match_here.
  destruct cs as [|a [|b rest]]; try discriminate.
  destruct (a =? c)%N eqn:Ha; [|discriminate].
  destruct (b =? Utf8.code "/")%N eqn:Hb; [|discriminate].
  apply N.eqb_eq in Ha, Hb. subst a b. cbn [andb].
  destruct (Re.word_run word rest) eqn:Hw; [discriminate|]. intros _.
  destruct (word_run_nonempty word rest) as (ch & rest' & -> & Hch).
  { rewrite Hw. discriminate. }
  exists [], [ch], rest'. repeat split; [discriminate | by repeat constructor].
Qed.

Lemma match_here_head word c w post :
  w <> [] -> Forall (fun a => word a = true) w ->
  is_Some (Re.match_here word c (c :: Utf8.code "/" :: w ++ post)).
Proof.
  intros Hw Hall. destruct w as [|ch w']; [congruence|].
  apply Forall_cons in Hall as [Hch _]. unfold Re.match_here.
  rewrite !N.eqb_refl. cbn [andb app Re.word_run]. rewrite Hch. eauto.
Qed.

Lemma search_from_mention word c cs : forall pos,
  is_Some (Re.search_from word c pos cs) <-> Spec.mention_in word c cs.
Proof.
  induction cs as [|a cs IH]; intros pos.
  - simpl. split.
    + intros [x Hx]. discriminate.
    + intros (pre & w & post & Heq & _).
      destruct pre; simpl in Heq; discriminate.
  - cbn [Re.search_from].
    destruct (Re.match_here word c (a :: cs)) as [m|] eqn:Hm.
    + split; [intros _; eapply match_here_mention; eauto | eauto].
    + rewrite IH. split.
      * intros (pre & w & post & -> & Hw & Hall).
        exists (a :: pre), w, post. auto.
      * intros (pre & w & post & Heq & Hw & Hall).
        destruct pre as [|a' pre].
        -- exfalso.
           pose proof (match_here_head word c w post Hw Hall) as Hx.
           cbn [app] in Heq. rewrite <- Heq, Hm in Hx. by destruct Hx.
        -- cbn [app] in Heq. injection Heq as -> ->. exists pre, w, post. auto.
Qed.

Lemma search_mention word c text :
  is_Some (Re.search word (Utf8.code c) (Utf8.decode text))
  <-> Spec.mention word c text.
Proof. apply search_from_mention. Qed.

Lemma count_append c s1 s2 :
  Str.count c (s1 +:+ s2) = Str.count c s1 + Str.count c s2.
Proof. induction s1 as [|a s1 IH]; simpl; [done | rewrite IH; lia]. Qed.

(** ** Sentences *)

Lemma split_sents_concat toks : forall cur,
  concat (split_sents cur toks) = cur ++ toks.
Proof.
  induction toks as [|t ts IH]; intros cur; simpl.
  - by rewrite app_nil_r.
  - destruct (Token.sent_start t); simpl; rewrite IH; [done|].
    by rewrite <- app_assoc.
Qed.

(** The sentences of a document partition its tokens, in order. *)
Lemma sents_concat doc : concat (sents doc) = doc.
Proof. destruct doc as [|t ts]; [done|]. apply split_sents_concat. Qed.

Lemma split_sents_nonempty toks : forall cur sent,
  cur <> [] -> sent ∈ split_sents cur toks -> sent <> [].
Proof.
  induction toks as [|t ts IH]; intros cur sent Hcur; simpl.
  - intros ->%list_elem_of_singleton. done.
  - destruct (Token.sent_start t).
    + intros [->|Hin]%elem_of_cons; [done|]. by apply (IH [t] sent).
    + apply IH. by destruct cur.
Qed.

(** No sentence is empty. *)
Lemma sents_nonempty doc sent : sent ∈ sents doc -> sent <> [].
Proof.
  destruct doc as [|t ts]; simpl; [by intros ?%elem_of_nil|].
  by apply split_sents_nonempty.
Qed.

Lemma sents_token doc sent token :
  sent ∈ sents doc -> token ∈ sent -> token ∈ doc.
Proof.
  intros Hs Ht. rewrite <- (sents_concat doc).
  apply list_elem_of_In, in_concat. exists sent.
  by rewrite <- !list_elem_of_In.
Qed.

Lemma sents_Forall (P : Token.t -> Prop) doc :
  Forall P doc -> Forall (Forall P) (sents doc).
Proof.
  intros HP. apply Forall_forall. intros sent Hs.
  apply Forall_forall. intros token Ht.
  rewrite Forall_forall in HP. apply HP. eapply sents_token; eauto.
Qed.

(** ** The seven predicates of the validator *)

Lemma finite_root_verb_spec token :
  finite_root_verb token = true <->
  Token.dep_ token = "ROOT" /\
  (Token.pos_ token = "VERB" \/ Token.pos_ token = "AUX") /\
  "VerbForm=Fin" ∈ Token.morph token.
Proof.
  unfold finite_root_verb.
  rewrite !andb_true_iff, !bool_decide_eq_true.
  rewrite elem_of_cons, list_elem_of_singleton. tauto.
Qed.

Lemma check_root_verb_spec doc :
  check_root_verb doc = true <-> Spec.has_finite_root_verb doc.
Proof.
  unfold check_root_verb, Spec.has_finite_root_verb.
  rewrite existsb_exists. split.
  - intros (sent & Hs & Hex). apply existsb_exists in Hex as (token & Ht & Hf).
    apply finite_root_verb_spec in Hf.
    apply list_elem_of_In in Hs, Ht. exists sent, token. tauto.
  - intros (sent & token & Hs & Ht & Hf).
    exists sent. split; [by apply list_elem_of_In|].
    apply existsb_exists. exists token.
    split; [by apply list_elem_of_In | by apply finite_root_verb_spec].
Qed.

Lemma negb_existsb_spec {A} (f : A -> bool) (l : list A) :
  negb (existsb f l) = true <-> forall x, x ∈ l -> f x = false.
Proof.
  rewrite negb_true_iff. split.
  - intros Hne x Hx. destruct (f x) eqn:Hfx; [|done].
    assert (existsb f l = true) as Hex; [|congruence].
    apply existsb_exists. exists x. by rewrite <- list_elem_of_In.
  - intros Hall. destruct (existsb f l) eqn:Hex; [|done].
    apply existsb_exists in Hex as (x & Hx & Hfx).
    apply list_elem_of_In in Hx. rewrite (Hall x Hx) in Hfx. done.
Qed.

Lemma no_scam_spec doc :
  negb (existsb (fun token => bool_decide (Token.text token ∈ ["scam"; "legit"])) doc) = true
  <-> Spec.no_banned_items doc.
Proof.
  rewrite negb_existsb_spec. unfold Spec.no_banned_items.
  apply forall_proper; intros token. apply forall_proper; intros _.
  rewrite bool_decide_eq_false, elem_of_cons, list_elem_of_singleton. tauto.
Qed.

Lemma no_mentions_spec word_char text :
  negb (bool_decide (is_Some (user_pattern word_char text))
        || bool_decide (is_Some (subreddit_pattern word_char text))) = true
  <-> Spec.no_mentions word_char text.
Proof.
  rewrite negb_true_iff, orb_false_iff, !bool_decide_eq_false.
  unfold user_pattern, subreddit_pattern, Spec.no_mentions.
  by rewrite !search_mention.
Qed.

Lemma frac_alpha_spec doc :
  Double.gt (frac_alpha doc) Double.six_tenths = true <-> Spec.mostly_alphabetic doc.
Proof. reflexivity. Qed.

Lemma exact_share_spec a m :
  m <> 0 ->
  negb (Qle_bool (Z.of_nat a # Pos.of_nat m) (6 # 10)) = true <->
  (0.6 < inject_Z (Z.of_nat a) / inject_Z (Z.of_nat m))%Q.
Proof.
  intros Hm.
  assert (Z.of_nat m = Z.pos (Pos.of_nat m)) as ->.
  { by rewrite <- (positive_nat_Z (Pos.of_nat m)), Nat2Pos.id. }
  rewrite <- Qmake_Qdiv, negb_true_iff. split.
  - intros Hle. apply Qnot_le_lt. intros H%Qle_bool_iff. congruence.
  - intros Hlt. destruct (Qle_bool _ _) eqn:Hle; [|done].
    apply Qle_bool_iff in Hle. by apply Qlt_not_le in Hlt.
Qed.

(** The agreement for every pair [a <= n <= 300], by evaluation. *)
Lemma share_agrees_table :
  forallb (fun n => forallb (fun a => share_agrees a n) (seq 0 (S n)))
          (seq 0 (S checked_tokens)) = true.
Proof. vm_compute. reflexivity. Qed.

Lemma alpha_count_le doc : Spec.alpha_count doc <= length doc.
Proof. apply length_filter. Qed.

Lemma forallb_seq_at (f : nat -> bool) (start len x : nat) :
  forallb f (seq start len) = true -> start <= x < start + len -> f x = true.
Proof.
  intros Hall Hx. rewrite forallb_forall in Hall. apply Hall, in_seq, Hx.
Qed.

Lemma share_agrees_checked a n :
  a <= n -> n <= checked_tokens -> share_agrees a n = true.
Proof.
  intros Ha Hn.
  apply (forallb_seq_at (fun a => share_agrees a n) 0 (S n) a); [|lia].
  apply (forallb_seq_at _ _ _ n share_agrees_table).
  lia.
Qed.

(** On documents of at most 300 tokens the double-precision comparison
    and the comparison of exact fractions agree. *)
Lemma mostly_alphabetic_exact doc :
  length doc <= checked_tokens ->
  Spec.mostly_alphabetic doc <-> Spec.share_above_six_tenths doc.
Proof.
  intros Hlen.
  pose proof (share_agrees_checked _ _ (alpha_count_le doc) Hlen) as Htab.
  unfold Spec.mostly_alphabetic, Spec.share_above_six_tenths.
  rewrite <- exact_share_spec by lia.
  unfold share_agrees in Htab. apply eqb_prop in Htab. by rewrite Htab.
Qed.

(** What a call of [is_valid_claim] returns: the conjunction of the seven
    tests on the annotation of the text; it never raises. *)
Lemma is_valid_claim_run word_char nlp text v :
  is_valid_claim word_char nlp text v =
  (let doc := (nlp text v).1 in
   Ok (check_root_verb doc
       && (negb (existsb Token.like_url doc)
       && (negb (existsb (fun token => bool_decide (Token.text token ∈ ["scam"; "legit"])) doc)
       && (negb (bool_decide (is_Some (user_pattern word_char text))
                 || bool_decide (is_Some (subreddit_pattern word_char text)))
       && ((3 <=? length doc)
       && (((Str.count "!" text <=? 1) && (length (sents doc) =? 1))
       && (Double.gt (frac_alpha doc) Double.six_tenths))))))),
   (nlp text v).2).
Proof.
  unfold is_valid_claim, annotate, bind, ret.
  destruct (nlp text v) as [doc v']. simpl. unfold id.
  by rewrite !andb_true_r.
Qed.

(** A text with a mention is rejected, whatever else it contains. *)
Lemma is_valid_claim_mention word_char nlp text v :
  Spec.mention word_char "u" text \/ Spec.mention word_char "r" text ->
  result_of (is_valid_claim word_char nlp text) v = Ok false.
Proof.
  intros Hm. unfold result_of. rewrite is_valid_claim_run. cbv zeta. cbn [fst].
  assert (negb (bool_decide (is_Some (user_pattern word_char text))
                || bool_decide (is_Some (subreddit_pattern word_char text))) = false) as ->.
  { apply not_true_iff_false. rewrite no_mentions_spec.
    unfold Spec.no_mentions. tauto. }
  by rewrite !andb_false_r.
Qed.

(** A text with two or more exclamation marks is rejected. *)
Lemma is_valid_claim_exclamations word_char nlp text v :
  2 <= Str.count "!" text ->
  result_of (is_valid_claim word_char nlp text) v = Ok false.
Proof.
  intros Hc. unfold result_of. rewrite is_valid_claim_run. cbv zeta. cbn [fst].
  assert ((Str.count "!" text <=? 1) = false) as -> by (apply Nat.leb_gt; lia).
  by rewrite !andb_false_r.
Qed.

(** A slash that follows a code point other than [c] starts no mention
    of [c], when the text has no other slash. *)
Lemma lone_slash_no_mention word c a pre rest :
  a <> c -> a <> Utf8.code "/" ->
  Utf8.code "/" ∉ pre -> Utf8.code "/" ∉ rest ->
  ~ Spec.mention_in word c (pre ++ a :: Utf8.code "/" :: rest).
Proof.
  intros Hac Ha Hpre Hrest (pre' & w & post & Heq & _ & _).
  revert pre' Hpre Heq. induction pre as [|x pre IH]; intros pre' Hpre Heq.
  - destruct pre' as [|y pre']; cbn [app] in Heq.
    + congruence.
    + injection Heq as -> Heq. apply Hrest.
      destruct pre' as [|z pre']; cbn [app] in Heq; injection Heq as _ ->.
      * apply elem_of_cons. by left.
      * rewrite elem_of_app, !elem_of_cons. right. right. by left.
  - apply not_elem_of_cons in Hpre as [Hx Hpre].
    destruct pre' as [|y pre']; cbn [app] in Heq.
    + injection Heq as -> Heq.
      destruct pre as [|z pre]; cbn [app] in Heq.
      * injection Heq as Ha' _. exact (Ha Ha').
      * injection Heq as Hz _. apply Hpre, elem_of_cons. by left.
    + injection Heq as _ Heq. by apply (IH pre').
Qed.

(** ** The string store *)

Section Store.

Variable hash_string : string -> N.

Lemma intern_store_ok s v :
  store_ok hash_string v -> store_ok hash_string (intern hash_string s v).
Proof.
  intros Hok key x. unfold intern.
  destruct (strings v !! hash_string s) eqn:Hs; [apply Hok|].
  simpl. rewrite lookup_insert.
  case_decide as Hk; [|apply Hok]. intros [= <-]. done.
Qed.

Lemma intern_keeps s v key x :
  strings v !! key = Some x ->
  strings (intern hash_string s v) !! key = Some x.
Proof.
  intros Hx. unfold intern.
  destruct (strings v !! hash_string s) eqn:Hs; [done|].
  simpl. rewrite lookup_insert_ne; [done|]. congruence.
Qed.

(** After [strings.add(label)], the hash of a collision-free label
    reads back as the label. *)
Lemma intern_lookup label v :
  store_ok hash_string v -> collision_free hash_string label ->
  strings (intern hash_string label v) !! hash_string label = Some label.
Proof.
  intros Hok Hfree. unfold intern.
  destruct (strings v !! hash_string label) as [x|] eqn:Hs.
  - rewrite Hs. f_equal. apply Hfree. by apply Hok.
  - simpl. by rewrite lookup_insert_eq.
Qed.

Lemma foldr_intern_store_ok {A} (f : A -> string) (l : list A) v :
  store_ok hash_string v ->
  store_ok hash_string (foldr (fun x => intern hash_string (f x)) v l).
Proof. induction l; simpl; auto using intern_store_ok. Qed.

End Store.

(** ** The matcher *)

Lemma family_matches_nil toks : forall start, family_matches [] toks start = [].
Proof. induction toks as [|t ts IH]; intros start; simpl; auto. Qed.

Lemma family_matches_cons_nil p pats toks : forall start,
  family_matches (p :: pats) toks start = [] <->
  family_matches [p] toks start = [] /\ family_matches pats toks start = [].
Proof.
  induction toks as [|t ts IH]; intros start; simpl; [tauto|].
  rewrite app_nil_r. rewrite !app_nil. rewrite IH. tauto.
Qed.

(** A pattern whose first entry is a plain entry that the head token
    fails has no match at the head. *)
Lemma match_ends_head_fails spec rest t ts pos :
  OP spec = OpOne -> spec_ok spec t = false ->
  match_ends (spec :: rest) (t :: ts) pos = [].
Proof. intros Hop Hok. simpl. by rewrite Hop, Hok. Qed.

Lemma may_start_false_ends pats t ts pos p :
  may_start pats t = false -> p ∈ pats -> match_ends p (t :: ts) pos = [].
Proof.
  unfold may_start. intros Hneg Hp.
  apply negb_true_iff in Hneg.
  rewrite negb_existsb_spec in Hneg. specialize (Hneg p Hp).
  destruct p as [|spec rest]; [done|].
  destruct (OP spec) eqn:Hop; try done.
  by apply match_ends_head_fails.
Qed.

Lemma flat_map_nil {A B} (f : A -> list B) (l : list A) :
  (forall x, x ∈ l -> f x = []) -> flat_map f l = [].
Proof.
  induction l as [|x l IH]; intros Hall; simpl; [done|].
  rewrite (Hall x) by (apply elem_of_cons; auto). simpl.
  apply IH. intros y Hy. apply Hall, elem_of_cons. auto.
Qed.

(** A span none of whose tokens can start a match has no match. *)
Lemma family_matches_no_start pats toks : forall start,
  Forall (fun t => may_start pats t = false) toks ->
  family_matches pats toks start = [].
Proof.
  induction toks as [|t ts IH]; intros start Hall; [done|].
  apply Forall_cons in Hall as [Ht Hts].
  cbn [family_matches]. rewrite (IH _ Hts), app_nil_r.
  apply flat_map_nil. intros p Hp.
  by rewrite (may_start_false_ends pats t ts start p Ht Hp).
Qed.

(** ** The comparison classifier *)

Lemma filter_label_other (label other : string) (l : list (nat * nat)) :
  other <> label ->
  filter (fun m : string * nat * nat => m.1.1 = label)
         (map (fun '(s, e) => (other, s, e)) l) = [].
Proof.
  intros Hne. induction l as [|[s e] l IH]; [done|]. simpl.
  rewrite filter_cons_False; [exact IH | simpl; congruence].
Qed.

Section Classifier.

Variable hash_string : string -> N.
Variable nlp : string -> Vocab -> Doc * Vocab.

(** Reading back the matches of one rule whose id is in the store,
    followed by matches that read back as [r]. *)
Lemma mapM_rule key name (l : list (nat * nat)) rest r v :
  strings v !! key = Some name ->
  mapM (fun '(match_id, start, stop) =>
          name <- StringStore_getitem match_id ;; ret (name, start, stop))
       rest v = (Ok r, v) ->
  mapM (fun '(match_id, start, stop) =>
          name <- StringStore_getitem match_id ;; ret (name, start, stop))
       (map (fun '(s, e) => (key, s, e)) l ++ rest) v
  = (Ok (map (fun '(s, e) => (name, s, e)) l ++ r), v).
Proof.
  intros Hk Hrest. induction l as [|[s e] l IH]; [done|].
  cbn [map app mapM]. unfold bind at 1 2. unfold StringStore_getitem at 1.
  rewrite Hk. unfold ret at 1. unfold bind at 1. rewrite IH. done.
Qed.

(** With both labels in the store, the loop over the sentences returns
    what the first sentence with a match decides, and leaves the store
    as it is. *)
Lemma scan_sents_run strict_id implicit_id ss v :
  strings v !! strict_id = Some "STRICT_COMPARISON" ->
  strings v !! implicit_id = Some "IMPLICIT_COMPARISON" ->
  scan_sents (mkMatcher [(strict_id, strict_patterns); (implicit_id, implicit_patterns)]) ss v
  = (Ok (Spec.first_label ss), v).
Proof.
  intros Hs Hi. induction ss as [|sent rest IH]; [done|].
  cbn [scan_sents Spec.first_label]. unfold bind at 1.
  unfold Matcher_call. cbn [rules flat_map].
  rewrite (mapM_rule _ _ _ _ _ v Hs (mapM_rule _ _ _ [] [] v Hi eq_refl)).
  rewrite app_nil_r.
  unfold Spec.sentence_label, Spec.strict_hits, Spec.implicit_hits.
  destruct (family_matches strict_patterns sent 0) as [|[s e] sh].
  - destruct (family_matches implicit_patterns sent 0) as [|[s e] ih].
    + exact IH.
    + cbn [map app]. rewrite filter_cons_False by (simpl; congruence).
      rewrite filter_label_other by congruence.
      rewrite filter_cons_True by done. done.
  - cbn [map app]. rewrite filter_cons_True by done. done.
Qed.

(** What a call of [detect_comparison] does: the annotator runs, the two
    labels are interned, and the result is the label of the first
    sentence with a match. *)
Lemma detect_comparison_run text v :
  store_ok hash_string v ->
  keeps_store hash_string nlp ->
  collision_free hash_string "STRICT_COMPARISON" ->
  collision_free hash_string "IMPLICIT_COMPARISON" ->
  detect_comparison hash_string nlp text v =
  (Ok (Spec.first_label (sents (nlp text v).1)),
   intern hash_string "IMPLICIT_COMPARISON"
     (intern hash_string "STRICT_COMPARISON" (nlp text v).2)).
Proof.
  intros Hok Hkeep Hstrict Himplicit.
  unfold detect_comparison, annotate, Matcher_add, Matcher_new, StringStore_add.
  unfold bind, ret. specialize (Hkeep text v Hok).
  destruct (nlp text v) as [doc v1]. cbn [fst snd rules app] in *.
  apply scan_sents_run.
  - apply intern_keeps. by apply intern_lookup.
  - apply intern_lookup; [by apply intern_store_ok | done].
Qed.

Lemma detect_comparison_result text v :
  store_ok hash_string v ->
  keeps_store hash_string nlp ->
  collision_free hash_string "STRICT_COMPARISON" ->
  collision_free hash_string "IMPLICIT_COMPARISON" ->
  result_of (detect_comparison hash_string nlp text) v
  = Ok (Spec.first_label (sents (nlp text v).1)).
Proof.
  intros. unfold result_of. by rewrite detect_comparison_run.
Qed.


End Classifier.

(** ** The scan over the sentences *)

Lemma sentence_label_None sent :
  Spec.sentence_label sent = None <-> Spec.no_match sent.
Proof.
  unfold Spec.sentence_label, Spec.no_match.
  destruct (Spec.strict_hits sent), (Spec.implicit_hits sent);
    split; intros H; try done; by destruct H.
Qed.



Lemma first_label_no_match ss :
  Forall Spec.no_match ss -> Spec.first_label ss = (false, "").
Proof.
  induction 1 as [|sent rest Hs _ IH]; [done|]. simpl.
  apply sentence_label_None in Hs. by rewrite Hs.
Qed.



(** ** Capitalization *)









(** Checking a decidable property of the sentences, or of the tokens of
    the sentences, by evaluation. *)
Lemma sent_check (P : Span -> Prop) `{!forall sent, Decision (P sent)} (ss : list Span) :
  forallb (fun sent => bool_decide (P sent)) ss = true ->
  forall sent, sent ∈ ss -> P sent.
Proof.
  intros Hall sent Hsent. rewrite forallb_forall in Hall.
  apply list_elem_of_In in Hsent.
  exact (bool_decide_eq_true_1 _ (Hall sent Hsent)).
Qed.

Lemma sents_check (P : Token.t -> Prop) `{!forall token, Decision (P token)}
    (ss : list Span) :
  forallb (forallb (fun token => bool_decide (P token))) ss = true ->
  forall sent token, sent ∈ ss -> token ∈ sent -> P token.
Proof.
  intros Hall sent token Hsent Htoken. rewrite forallb_forall in Hall.
  apply list_elem_of_In in Hsent, Htoken. specialize (Hall sent Hsent).
  rewrite forallb_forall in Hall.
  exact (bool_decide_eq_true_1 _ (Hall token Htoken)).
Qed.

(** ** Whitespace tokens *)

Lemma is_space_lower_char c : Str.is_space c = true -> Str.lower_char c = c.
Proof. destruct c as [[] [] [] [] [] [] [] []]; vm_compute; congruence. Qed.

Lemma all_space_lower s : Str.all_space s = true -> Str.lower s = s.
Proof.
  induction s as [|c s IH]; simpl; [done|].
  intros [Hc Hs]%andb_true_iff. by rewrite (is_space_lower_char c Hc), (IH Hs).
Qed.

Lemma space_token_lower token w :
  space_token token -> Str.all_space w = false -> Token.lower_ token <> w.
Proof.
  intros (Hsp & _) Hw Heq. unfold Token.lower_ in Heq.
  rewrite (all_space_lower _ Hsp) in Heq. congruence.
Qed.

(** No pattern of either family can start at a whitespace token. *)
Lemma space_token_no_start token :
  space_token token ->
  may_start strict_patterns token = false /\
  may_start implicit_patterns token = false.
Proof.
  intros Hsp.
  pose proof (space_token_lower token "as" Hsp eq_refl) as Has.
  pose proof (space_token_lower token "more" Hsp eq_refl) as Hmore.
  pose proof (space_token_lower token "less" Hsp eq_refl) as Hless.
  assert (Token.lower_ token ∉ ["more"; "less"]) as Hml.
  { rewrite !elem_of_cons, elem_of_nil. tauto. }
  destruct Hsp as (_ & _ & Htag & _).
  unfold may_start, strict_patterns, implicit_patterns, standalone_comparative, spec_ok.
  cbn [existsb tok OP constraints forallb attr_of value_ok].
  rewrite Htag, (bool_decide_eq_false_2 _ Has), (bool_decide_eq_false_2 _ Hml).
  destruct (bool_decide (Token.lemma_ token = "compare")),
           (bool_decide (Token.lower_ token ∈ ["most"; "least"]));
    split; reflexivity.
Qed.

Lemma space_tokens_no_match sent :
  Forall space_token sent -> Spec.no_match sent.
Proof.
  intros Hall. split; apply family_matches_no_start;
    eapply Forall_impl; eauto; intros t Ht; by apply space_token_no_start.
Qed.

Lemma space_tokens_no_root_verb doc :
  Forall space_token doc -> check_root_verb doc = false.
Proof.
  intros Hall. apply not_true_iff_false. rewrite check_root_verb_spec.
  intros (sent & token & Hs & Ht & _ & Hpos & _).
  rewrite Forall_forall in Hall.
  destruct (Hall token (sents_token _ _ _ Hs Ht)) as (_ & Hsp & _).
  rewrite Hsp in Hpos. by destruct Hpos.
Qed.

(** ** The sample annotator meets the assumptions *)

Lemma sample_store_ok : store_ok Samples.hash_string Samples.empty_vocab.
Proof. intros key s. simpl. by rewrite lookup_empty. Qed.

Lemma sample_collision_free label : collision_free Samples.hash_string label.
Proof.
  intros s. unfold Samples.hash_string. intros [= Heq]. by apply (inj encode).
Qed.

Lemma sample_keeps_store : keeps_store Samples.hash_string Samples.nlp.
Proof. intros text v Hok. simpl. by apply foldr_intern_store_ok. Qed.


Lemma sample_blank_input_ok : blank_input_ok Samples.nlp.
Proof.
  split; [done|]. intros text v Hsp. simpl. unfold Samples.annotation.
  rewrite Hsp. destruct text; constructor; [|constructor].
  by repeat split.
Qed.

(** * The claims *)

(** C1. For every text, [is_valid_claim] returns (it does not raise) and
    it returns true exactly when the seven predicates hold together of
    the annotation of the text: finite root verb, no URL token, no token
    "scam" or "legit", no [u/...] or [r/...] mention in the raw text, at
    least three tokens, at most one exclamation mark with exactly one
    sentence, and an alphabetic share above 0.6.  So any one predicate
    failing makes the result false.  A mention is looked for among the
    code points of the text, and its word characters are those of the
    library's table [word_char], letters of every script included.  The
    share is computed in double precision, as the program does; up to
    300 tokens that is the comparison of the exact fraction with six
    tenths. *)
Theorem is_valid_claim_seven_predicates
    (word_char : N -> bool) (nlp : string -> Vocab -> Doc * Vocab)
    (text : string) (v : Vocab) :
  let doc := (nlp text v).1 in
  exists b : bool,
    result_of (is_valid_claim word_char nlp text) v = Ok b /\
    (b = true <->
       Spec.has_finite_root_verb doc /\
       Spec.no_url doc /\
       Spec.no_banned_items doc /\
       Spec.no_mentions word_char text /\
       Spec.min_length doc /\
       Spec.single_sentence_low_exclamation text doc /\
       Spec.mostly_alphabetic doc) /\
    (length doc <= checked_tokens ->
     (Spec.mostly_alphabetic doc <-> Spec.share_above_six_tenths doc)).
Proof.
  intros doc. unfold result_of. rewrite is_valid_claim_run.
  cbv zeta. cbn [fst]. fold doc.
  eexists. split; [reflexivity|]. split; [|apply mostly_alphabetic_exact].
  rewrite !andb_true_iff.
  rewrite check_root_verb_spec, no_scam_spec, no_mentions_spec, frac_alpha_spec.
  rewrite negb_existsb_spec, !Nat.leb_le, Nat.eqb_eq.
  unfold Spec.no_url, Spec.min_length, Spec.single_sentence_low_exclamation.
  tauto.
Qed.

(** "The sky is blue." has five tokens, four of them alphabetic: the
    share is above six tenths as an exact fraction too. *)
Lemma is_valid_claim_seven_predicates_witness :
  Spec.share_above_six_tenths (Samples.nlp "The sky is blue." Samples.empty_vocab).1.
Proof.
  destruct (is_valid_claim_seven_predicates
              Samples.word_char Samples.nlp "The sky is blue." Samples.empty_vocab)
    as (b & _ & _ & Hexact).
  apply Hexact.
  - vm_compute. lia.
  - reflexivity.
Defined.



(** C3, as amended.  A text with exactly one sentence and at most one
    exclamation mark that satisfies predicates 1, 2, 3, 5 and 7 and that
    also has no [u/...] or [r/...] mention (predicate 4) is accepted; a
    text with two exclamation marks is rejected, whatever else holds of
    it. *)
Theorem is_valid_claim_exclamation_gate
    (word_char : N -> bool) (nlp : string -> Vocab -> Doc * Vocab)
    (text text' : string) (v v' : Vocab) :
  let doc := (nlp text v).1 in
  length (sents doc) = 1 ->
  Str.count "!" text <= 1 ->
  Spec.has_finite_root_verb doc ->
  Spec.no_url doc ->
  Spec.no_banned_items doc ->
  Spec.no_mentions word_char text ->
  Spec.min_length doc ->
  Spec.mostly_alphabetic doc ->
  Str.count "!" text' = 2 ->
  result_of (is_valid_claim word_char nlp text) v = Ok true /\
  result_of (is_valid_claim word_char nlp text') v' = Ok false.
Proof.
  intros doc Hone Hbang H1 H2 H3 H4 H5 H7 Htwo. split.
  - unfold result_of. rewrite is_valid_claim_run. cbv zeta. cbn [fst]. fold doc.
    apply check_root_verb_spec in H1. apply no_scam_spec in H3.
    apply no_mentions_spec in H4. apply frac_alpha_spec in H7.
    apply negb_existsb_spec in H2. apply Nat.leb_le in H5, Hbang.
    apply Nat.eqb_eq in Hone.
    by rewrite H1, H2, H3, H4, H5, Hbang, Hone, H7.
  - apply is_valid_claim_exclamations. lia.
Qed.

(** The sample table is the library's on the ASCII range. *)
Lemma sample_word_char_ascii n :
  (n < 128)%N -> Samples.word_char n = Re.ascii_word n.
Proof.
  intros Hn. unfold Samples.word_char.
  rewrite bool_decide_eq_false_2.
  - assert ((192 <=? n)%N = false) as -> by (apply N.leb_gt; lia).
    by rewrite !orb_false_r.
  - rewrite !elem_of_cons, elem_of_nil. lia.
Qed.

(** The sample annotations satisfy the predicates they should. *)
Lemma sample_predicates text :
  let doc := Samples.annotation text in
  check_root_verb doc = true ->
  negb (existsb Token.like_url doc) = true ->
  negb (existsb (fun token => bool_decide (Token.text token ∈ ["scam"; "legit"])) doc) = true ->
  (3 <=? length doc) = true ->
  Double.gt (frac_alpha doc) Double.six_tenths = true ->
  Spec.has_finite_root_verb doc /\ Spec.no_url doc /\ Spec.no_banned_items doc /\
  Spec.min_length doc /\ Spec.mostly_alphabetic doc.
Proof.
  intros doc H1 H2 H3 H5 H7.
  apply check_root_verb_spec in H1. apply no_scam_spec in H3.
  apply frac_alpha_spec in H7. apply Nat.leb_le in H5.
  rewrite negb_existsb_spec in H2. tauto.
Qed.

(** "The sky is blue!" is accepted, "The sky is blue!!" is not. *)
Lemma is_valid_claim_exclamation_gate_witness :
  result_of (is_valid_claim Samples.word_char Samples.nlp "The sky is blue!") Samples.empty_vocab = Ok true /\
  result_of (is_valid_claim Samples.word_char Samples.nlp "The sky is blue!!") Samples.empty_vocab = Ok false.
Proof.
  destruct (sample_predicates "The sky is blue!") as (H1 & H2 & H3 & H5 & H7);
    try reflexivity.
  apply (is_valid_claim_exclamation_gate Samples.word_char Samples.nlp
           "The sky is blue!" "The sky is blue!!"); try assumption.
  - reflexivity.
  - simpl. lia.
  - apply no_mentions_spec. reflexivity.
  - reflexivity.
Defined.

(** C3 as stated fails: "I think r/science is great" is one sentence
    without exclamation mark and satisfies predicates 1, 2, 3, 5 and 7,
    but it mentions a subreddit and is rejected.  The table of word
    characters only has to be right on the ASCII range for that. *)
Lemma is_valid_claim_exclamation_gate_counterexample :
  ~ (forall (word_char : N -> bool) (nlp : string -> Vocab -> Doc * Vocab)
            (text : string) (v : Vocab),
       (forall n, (n < 128)%N -> word_char n = Re.ascii_word n) ->
       let doc := (nlp text v).1 in
       length (sents doc) = 1 ->
       Str.count "!" text <= 1 ->
       Spec.has_finite_root_verb doc ->
       Spec.no_url doc ->
       Spec.no_banned_items doc ->
       Spec.min_length doc ->
       Spec.mostly_alphabetic doc ->
       result_of (is_valid_claim word_char nlp text) v = Ok true).
Proof.
  intros Hclaim.
  destruct (sample_predicates "I think r/science is great") as (H1 & H2 & H3 & H5 & H7);
    try reflexivity.
  specialize (Hclaim Samples.word_char Samples.nlp "I think r/science is great"
                Samples.empty_vocab sample_word_char_ascii
                eq_refl ltac:(simpl; lia) H1 H2 H3 H5 H7).
  vm_compute in Hclaim. discriminate Hclaim.
Qed.

(** The standalone pattern accepts a token when it is tagged JJR or JJS
    and its lowercase form is neither "most" nor "least". *)
Lemma standalone_comparative_token token :
  family_matches [standalone_comparative] [token] 0 =
  if bool_decide (Token.tag_ token ∈ ["JJR"; "JJS"])
     && negb (bool_decide (Token.lower_ token ∈ ["most"; "least"]))
  then [(0, 1)] else [].
Proof.
  unfold standalone_comparative. cbn.
  destruct (bool_decide (Token.tag_ token ∈ ["JJR"; "JJS"])),
           (bool_decide (Token.lower_ token ∈ ["most"; "least"])); reflexivity.
Qed.

Lemma standalone_comparative_no_start token :
  (Token.tag_ token ∈ ["JJR"; "JJS"] -> Token.lower_ token ∈ ["most"; "least"]) ->
  may_start [standalone_comparative] token = false.
Proof.
  intros Hex. unfold may_start, standalone_comparative, spec_ok.
  cbn [existsb tok OP constraints forallb attr_of value_ok].
  destruct (bool_decide (Token.tag_ token ∈ ["JJR"; "JJS"])) eqn:Htag; [|done].
  apply bool_decide_eq_true in Htag.
  by rewrite (bool_decide_eq_true_2 _ (Hex Htag)).
Qed.

(** C4. A token tagged JJR or JJS matches the standalone implicit
    pattern exactly when its lowercase form is neither "most" nor
    "least".  So a text whose comparative-tagged tokens are all "most"
    or "least" and in which no other strict or implicit pattern matches,
    like "Most people agree." with "Most" tagged JJS, gets (false, ""). *)
Theorem detect_comparison_most_least
    (hash_string : string -> N) (nlp : string -> Vocab -> Doc * Vocab)
    (text : string) (v : Vocab) :
  store_ok hash_string v ->
  keeps_store hash_string nlp ->
  collision_free hash_string "STRICT_COMPARISON" ->
  collision_free hash_string "IMPLICIT_COMPARISON" ->
  let ss := sents (nlp text v).1 in
  (forall token,
     Token.tag_ token ∈ ["JJR"; "JJS"] ->
     (family_matches [standalone_comparative] [token] 0 = [(0, 1)]
      <-> Token.lower_ token ∉ ["most"; "least"]) /\
     (family_matches [standalone_comparative] [token] 0 = []
      <-> Token.lower_ token ∈ ["most"; "least"])) /\
  ((forall sent token,
      sent ∈ ss -> token ∈ sent -> Token.tag_ token ∈ ["JJR"; "JJS"] ->
      Token.lower_ token ∈ ["most"; "least"]) ->
   (forall sent,
      sent ∈ ss ->
      Spec.strict_hits sent = [] /\
      family_matches (tail implicit_patterns) sent 0 = []) ->
   result_of (detect_comparison hash_string nlp text) v = Ok (false, "")).
Proof.
  intros Hok Hkeep Hs Hi ss. split.
  - intros token Htag. rewrite standalone_comparative_token.
    rewrite (bool_decide_eq_true_2 _ Htag). cbn [andb].
    destruct (bool_decide (Token.lower_ token ∈ ["most"; "least"])) eqn:Hlow.
    + apply bool_decide_eq_true in Hlow. cbn [negb]. split; split; try done.
    + apply bool_decide_eq_false in Hlow. cbn [negb]. split; split; try done.
  - intros Hmost Hother. rewrite detect_comparison_result by done. fold ss.
    rewrite first_label_no_match; [done|].
    apply Forall_forall. intros sent Hsent.
    destruct (Hother sent Hsent) as [Hstrict Htail]. split; [done|].
    unfold Spec.implicit_hits.
    change implicit_patterns with (standalone_comparative :: tail implicit_patterns).
    apply family_matches_cons_nil. split; [|done].
    apply family_matches_no_start, Forall_forall. intros token Htoken.
    apply standalone_comparative_no_start. eauto.
Qed.

(** "Most people agree.", with "Most" tagged JJS. *)
Lemma detect_comparison_most_least_witness :
  result_of (detect_comparison Samples.hash_string Samples.nlp "Most people agree.")
            Samples.empty_vocab
  = Ok (false, "").
Proof.
  refine (proj2
    (detect_comparison_most_least Samples.hash_string Samples.nlp
       "Most people agree." Samples.empty_vocab
       sample_store_ok sample_keeps_store
       (sample_collision_free _) (sample_collision_free _)) _ _).
  - apply (sents_check (fun token =>
             Token.tag_ token ∈ ["JJR"; "JJS"] ->
             Token.lower_ token ∈ ["most"; "least"])).
    vm_compute. reflexivity.
  - apply (sent_check (fun sent =>
             Spec.strict_hits sent = [] /\
             family_matches (tail implicit_patterns) sent 0 = [])).
    vm_compute. reflexivity.
Defined.

(** C5. On the empty text and on every whitespace-only text neither
    function raises: [is_valid_claim] returns false and
    [detect_comparison] returns (false, "").  The empty text has no token
    and no sentence, so the length test fails (3 <= 0 is false) and the
    alphabetic share is 0 divided by 1, the denominator being max(1, 0). *)
Theorem blank_input_rejected
    (word_char : N -> bool) (hash_string : string -> N)
    (nlp : string -> Vocab -> Doc * Vocab) (text : string) (v : Vocab) :
  store_ok hash_string v ->
  keeps_store hash_string nlp ->
  collision_free hash_string "STRICT_COMPARISON" ->
  collision_free hash_string "IMPLICIT_COMPARISON" ->
  blank_input_ok nlp ->
  Str.all_space text = true ->
  (let doc := (nlp "" v).1 in
   length doc = 0 /\ sents doc = [] /\ (3 <=? length doc) = false /\
   frac_alpha doc = 0%float) /\
  result_of (is_valid_claim word_char nlp "") v = Ok false /\
  result_of (detect_comparison hash_string nlp "") v = Ok (false, "") /\
  result_of (is_valid_claim word_char nlp text) v = Ok false /\
  result_of (detect_comparison hash_string nlp text) v = Ok (false, "").
Proof.
  intros Hok Hkeep Hs Hi [Hempty Hblank] Hsp.
  assert (forall t, Str.all_space t = true ->
            result_of (is_valid_claim word_char nlp t) v = Ok false /\
            result_of (detect_comparison hash_string nlp t) v = Ok (false, ""))
    as Hboth.
  { intros t Ht. specialize (Hblank t v Ht). split.
    - unfold result_of. rewrite is_valid_claim_run. cbv zeta. cbn [fst].
      by rewrite (space_tokens_no_root_verb _ Hblank).
    - rewrite detect_comparison_result by done.
      rewrite first_label_no_match; [done|].
      eapply Forall_impl; [by apply sents_Forall|].
      apply space_tokens_no_match. }
  split; [|split; [|split]].
  - cbv zeta. by rewrite Hempty.
  - by apply Hboth.
  - by apply Hboth.
  - by apply Hboth.
Qed.

(** The sample annotator on a text of three spaces. *)
Lemma blank_input_rejected_witness :
  result_of (is_valid_claim Samples.word_char Samples.nlp "   ") Samples.empty_vocab = Ok false /\
  result_of (detect_comparison Samples.hash_string Samples.nlp "   ")
            Samples.empty_vocab = Ok (false, "").
Proof.
  refine (proj2 (proj2 (proj2
    (blank_input_rejected Samples.word_char Samples.hash_string Samples.nlp
       "   " Samples.empty_vocab
       sample_store_ok sample_keeps_store
       (sample_collision_free _) (sample_collision_free _)
       sample_blank_input_ok _)))).
  reflexivity.
Defined.

(** C6, as amended.  [check_root_verb] is a total function: whatever the
    ROOT tokens of the sentences are, it returns a boolean and does not
    raise.  It is the existential over all tokens of all sentences of
    "ROOT, VERB or AUX, finite".  A sentence without ROOT token, and more
    generally a sentence none of whose ROOT tokens (one or several) is a
    finite VERB or AUX, contributes false; the result is false when no
    sentence has such a token. *)
Theorem check_root_verb_existential (doc : Doc) :
  (check_root_verb doc = true <-> Spec.has_finite_root_verb doc) /\
  (forall sent,
     sent ∈ sents doc ->
     (Spec.root_tokens sent = [] -> existsb finite_root_verb sent = false) /\
     (Forall (fun token => ~ Spec.finite_verb token) (Spec.root_tokens sent) ->
      existsb finite_root_verb sent = false)) /\
  ((forall sent,
      sent ∈ sents doc ->
      Forall (fun token => ~ Spec.finite_verb token) (Spec.root_tokens sent)) ->
   check_root_verb doc = false).
Proof.
  assert (forall sent,
            Forall (fun token => ~ Spec.finite_verb token) (Spec.root_tokens sent) ->
            existsb finite_root_verb sent = false) as Hsent.
  { intros sent Hnone. apply not_true_iff_false. intros Hex.
    apply existsb_exists in Hex as (token & Ht & Hf).
    apply list_elem_of_In in Ht. apply finite_root_verb_spec in Hf.
    rewrite Forall_forall in Hnone. apply (Hnone token).
    - apply list_elem_of_filter. tauto.
    - unfold Spec.finite_verb. tauto. }
  split; [apply check_root_verb_spec | split].
  - intros sent _. split; [|apply Hsent].
    intros Hno. apply Hsent. rewrite Hno. constructor.
  - intros Hnone. unfold check_root_verb. apply not_true_iff_false. intros Hex.
    apply existsb_exists in Hex as (sent & Hs & Hf).
    apply list_elem_of_In in Hs. rewrite (Hsent sent (Hnone sent Hs)) in Hf.
    discriminate.
Qed.

(** A sentence without any ROOT token. *)
Lemma check_root_verb_existential_witness :
  check_root_verb Samples.no_root = false.
Proof.
  apply (proj2 (proj2 (check_root_verb_existential Samples.no_root))).
  apply (sent_check (fun sent =>
           Forall (fun token => ~ Spec.finite_verb token) (Spec.root_tokens sent))).
  vm_compute. reflexivity.
Defined.

(** C6 as stated fails: the sentence "Dogs bark." annotated with two ROOT
    tokens, the second a finite verb, breaks the invariant, and
    [check_root_verb] does not return false for it. *)
Lemma check_root_verb_existential_counterexample :
  ~ (forall (doc : Doc) (sent : Span),
       sent ∈ sents doc -> Spec.violates_root_invariant sent ->
       existsb finite_root_verb sent = false) /\
  sents Samples.two_roots = [Samples.two_roots] /\
  Spec.violates_root_invariant Samples.two_roots /\
  check_root_verb Samples.two_roots = true.
Proof.
  assert (Spec.violates_root_invariant Samples.two_roots) as Hviolates.
  { right. left. vm_compute. lia. }
  split; [|split; [reflexivity | split; [exact Hviolates | reflexivity]]].
  intros Hclaim.
  specialize (Hclaim Samples.two_roots Samples.two_roots).
  discriminate Hclaim; [by apply list_elem_of_singleton | exact Hviolates].
Qed.

(** C7. The registry has exactly two entries, in this order: "comparison"
    for the comparison detector and "other" for the placeholder; and the
    placeholder returns (false, "") for every text, without touching the
    vocabulary. *)
Theorem category_registry
    (hash_string : string -> N) (nlp : string -> Vocab -> Doc * Vocab) :
  let registry := CATEGORY_FUNCTIONS hash_string nlp in
  dict_keys registry = ["comparison"; "other"] /\
  category hash_string nlp "comparison" = Some (detect_comparison hash_string nlp) /\
  category hash_string nlp "other" = Some detect_other /\
  (forall name, name <> "comparison" -> name <> "other" ->
     category hash_string nlp name = None) /\
  (forall text v, detect_other text v = (Ok (false, ""), v)).
Proof.
  cbv zeta. repeat split.
  intros name H1 H2. unfold category, CATEGORY_FUNCTIONS. cbn [dict_get].
  rewrite !bool_decide_eq_false_2; congruence.
Qed.

(** Any name other than the two registered ones is not in the registry. *)
Lemma category_registry_witness :
  category Samples.hash_string Samples.nlp "scam" = None.
Proof.
  apply (proj1 (proj2 (proj2 (proj2
           (category_registry Samples.hash_string Samples.nlp)))));
    discriminate.
Defined.







(** The capitalized text gets the strict label. *)
Example More_money_than_sense :
  result_of (detect_comparison Samples.hash_string Samples.nlp "More money than sense")
            Samples.empty_vocab
  = Ok (true, "STRICT_COMPARISON").
Proof. reflexivity. Qed.

(** C10. The mention predicate is case-sensitive.  One of the two
    searches succeeds exactly when the raw text contains a lowercase "u"
    or "r", a slash and at least one word character, of whatever script;
    such a text is rejected, and an accepted text has no such substring.
    A text whose only slash follows an uppercase "U" or "R" has no
    mention: neither search succeeds on it. *)
Theorem mention_case_sensitive (word_char : N -> bool) :
  (forall text,
     is_Some (user_pattern word_char text) \/ is_Some (subreddit_pattern word_char text)
     <-> Spec.mention word_char "u" text \/ Spec.mention word_char "r" text) /\
  (forall (nlp : string -> Vocab -> Doc * Vocab) text v,
     Spec.mention word_char "u" text \/ Spec.mention word_char "r" text ->
     result_of (is_valid_claim word_char nlp text) v = Ok false) /\
  (forall (nlp : string -> Vocab -> Doc * Vocab) text v,
     result_of (is_valid_claim word_char nlp text) v = Ok true ->
     Spec.no_mentions word_char text) /\
  (forall (upper : ascii) text pre rest,
     upper = "U"%char \/ upper = "R"%char ->
     Utf8.decode text = pre ++ Utf8.code upper :: Utf8.code "/" :: rest ->
     Utf8.code "/" ∉ pre -> Utf8.code "/" ∉ rest ->
     user_pattern word_char text = None /\
     subreddit_pattern word_char text = None).
Proof.
  split; [|split; [|split]].
  - intros text. unfold user_pattern, subreddit_pattern.
    by rewrite !search_mention.
  - intros nlp text v. apply is_valid_claim_mention.
  - intros nlp text v. unfold result_of. rewrite is_valid_claim_run.
    cbv zeta. cbn [fst]. intros [= Hb].
    rewrite !andb_true_iff in Hb. apply no_mentions_spec. tauto.
  - intros upper text pre rest Hup Heq Hpre Hrest.
    unfold user_pattern, subreddit_pattern.
    split; apply eq_None_not_Some; rewrite search_mention;
      unfold Spec.mention; rewrite Heq;
      apply lone_slash_no_mention; try done; by destruct Hup as [-> | ->].
Qed.

(** "I think r/science is great" is rejected, and so is
    "I like r/été a lot"; "U/someone" and "R/somewhere" match neither
    pattern. *)
Lemma mention_case_sensitive_witness :
  result_of (is_valid_claim Samples.word_char Samples.nlp "I think r/science is great")
            Samples.empty_vocab = Ok false /\
  result_of (is_valid_claim Samples.word_char Samples.nlp "I like r/été a lot")
            Samples.empty_vocab = Ok false /\
  (user_pattern Samples.word_char "U/someone" = None /\
   subreddit_pattern Samples.word_char "U/someone" = None) /\
  (user_pattern Samples.word_char "R/somewhere" = None /\
   subreddit_pattern Samples.word_char "R/somewhere" = None).
Proof.
  destruct (mention_case_sensitive Samples.word_char)
    as (Hiff & Hreject & _ & Hupper).
  split; [|split; [|split]].
  - apply Hreject. apply Hiff. right. vm_compute. eauto.
  - apply Hreject. apply Hiff. right. vm_compute. eauto.
  - apply (Hupper "U"%char "U/someone" [] (Utf8.decode "someone"));
      [by left | reflexivity | apply not_elem_of_nil |].
    apply (bool_decide_unpack _). vm_compute. exact I.
  - apply (Hupper "R"%char "R/somewhere" [] (Utf8.decode "somewhere"));
      [by right | reflexivity | apply not_elem_of_nil |].
    apply (bool_decide_unpack _). vm_compute. exact I.
Defined.

(** The searches read code points, not bytes: the name of the mention
    in "I like r/été a lot" is the three letters of "été", and the match
    starts at the eighth character. *)
Example non_ascii_mention_found :
  subreddit_pattern Samples.word_char "I like r/été a lot"
  = Some (7, [114; 47; 233; 116; 233]%N).
Proof. reflexivity. Qed.

(** That text is rejected. *)
Example non_ascii_mention_rejected :
  result_of (is_valid_claim Samples.word_char Samples.nlp "I like r/été a lot")
            Samples.empty_vocab = Ok false.
Proof. reflexivity. Qed.

(** A text with an uppercase variant only can be a valid claim. *)
Example uppercase_mention_accepted :
  result_of (is_valid_claim Samples.word_char Samples.nlp "He asked U/someone") Samples.empty_vocab
  = Ok true.
Proof. reflexivity. Qed.

(** ** The examples of the design document, on the sample annotations *)

Example as_great_as_strict :
  result_of (detect_comparison Samples.hash_string Samples.nlp "This is as great as that.")
            Samples.empty_vocab
  = Ok (true, "STRICT_COMPARISON").
Proof. reflexivity. Qed.

Example best_idea_implicit :
  result_of (detect_comparison Samples.hash_string Samples.nlp "This is the best idea ever.")
            Samples.empty_vocab
  = Ok (true, "IMPLICIT_COMPARISON").
Proof. reflexivity. Qed.

Example sky_is_blue_none :
  result_of (detect_comparison Samples.hash_string Samples.nlp "The sky is blue.")
            Samples.empty_vocab
  = Ok (false, "").
Proof. reflexivity. Qed.

(** Only the second sentence has a comparison: the scan reaches it. *)
Example second_sentence_reached :
  result_of (detect_comparison Samples.hash_string Samples.nlp
               "The sky is blue. It is better than rain.")
            Samples.empty_vocab
  = Ok (true, "STRICT_COMPARISON").
Proof. reflexivity. Qed.

(** * Further properties *)

(** Unfolds string concatenation in the goal. *)
Ltac unfold_append_goal :=
  cbv beta iota delta [String.append]; fold String.append.

(** ** Stripping whitespace *)







Lemma append_assoc (s1 s2 s3 : string) : (s1 +:+ s2) +:+ s3 = s1 +:+ (s2 +:+ s3).
Proof.
  induction s1 as [|a s1 IH]; unfold_append_goal; [done | by rewrite IH].
Qed.

(** ** Substitution with an anchored pattern *)





(** ** The characters a match can begin with *)





(** ** Capitalization of the text under IGNORECASE *)

Lemma lower_length s : String.length (Str.lower s) = String.length s.
Proof. induction s as [|a s IH]; simpl; [done | by rewrite IH]. Qed.

Lemma is_space_lower c : Str.is_space (Str.lower_char c) = Str.is_space c.
Proof. destruct c as [[] [] [] [] [] [] [] []]; reflexivity. Qed.

Lemma lower_cons_inv a s t :
  Str.lower (String a s) = Str.lower t ->
  exists b t', t = String b t' /\ Str.lower_char a = Str.lower_char b /\
               Str.lower s = Str.lower t'.
Proof.
  destruct t as [|b t']; simpl; [discriminate|]. intros [= Hc Hs]. eauto.
Qed.

Lemma Forall2_flat_map {A B} (R : A -> A -> Prop) (S : B -> B -> Prop)
    (f g : A -> list B) (l1 l2 : list A) :
  Forall2 R l1 l2 ->
  (forall x y, R x y -> Forall2 S (f x) (g y)) ->
  Forall2 S (flat_map f l1) (flat_map g l2).
Proof.
  intros Hl Hf. induction Hl as [|x y l1 l2 Hxy _ IH]; simpl; [constructor|].
  apply Forall2_app; auto.
Qed.

Lemma iterate_case (step : Regex.State -> list Regex.State) :
  (forall st1 st2, same_up_to_case st1 st2 ->
     Forall2 same_up_to_case (step st1) (step st2)) ->
  forall fuel st1 st2, same_up_to_case st1 st2 ->
    Forall2 same_up_to_case (Regex.iterate step fuel st1) (Regex.iterate step fuel st2).
Proof.
  intros Hstep. induction fuel as [|fuel IH]; intros st1 st2 Hst; cbn [Regex.iterate].
  - by (constructor; [exact Hst | constructor]).
  - apply Forall2_app; [|by (constructor; [exact Hst | constructor])].
    apply (Forall2_flat_map same_up_to_case); [by apply Hstep|].
    intros x y Hxy. destruct Hst as [Hpos _]. pose proof Hxy as [Hpos' _].
    rewrite Hpos, Hpos'. destruct (y.1 <=? st2.1); [constructor | by apply IH].
Qed.

(** Under IGNORECASE a pattern matches two capitalization variants of a
    text alike. *)
Lemma run_case r : forall st1 st2,
  same_up_to_case st1 st2 ->
  Forall2 same_up_to_case (Regex.run true r st1) (Regex.run true r st2).
Proof.
  induction r as [| |c|chars space|r1 IH1 r2 IH2|r1 IH1 r2 IH2|r IH|r IH|r IH];
    intros [pos1 s1] [pos2 s2] Hst; pose proof Hst as [Hpos Hlow];
    cbn [fst snd] in Hpos, Hlow; subst pos2; cbn [Regex.run fst snd].
  - (repeat constructor; done).
  - destruct (pos1 =? 0); (repeat constructor; done).
  - destruct s1 as [|a s1].
    + destruct s2; [constructor | discriminate].
    + apply lower_cons_inv in Hlow as (b & s2' & -> & Hc & Hs).
      unfold Regex.lit_ok. rewrite Hc.
      destruct (Ascii.eqb _ _); (repeat constructor; done).
  - destruct s1 as [|a s1].
    + destruct s2; [constructor | discriminate].
    + apply lower_cons_inv in Hlow as (b & s2' & -> & Hc & Hs).
      assert (Regex.class_ok true chars space a = Regex.class_ok true chars space b) as ->.
      { unfold Regex.class_ok, Regex.lit_ok. rewrite Hc.
        by rewrite <- (is_space_lower a), <- (is_space_lower b), Hc. }
      destruct (Regex.class_ok _ _ _ _); (repeat constructor; done).
  - apply (Forall2_flat_map same_up_to_case); [by apply IH1 | exact IH2].
  - apply Forall2_app; [by apply IH1 | by apply IH2].
  - apply Forall2_app; [by apply IH | (repeat constructor; done)].
  - rewrite <- (lower_length s1), Hlow, lower_length. by apply iterate_case.
  - apply (Forall2_flat_map same_up_to_case); [by apply IH|].
    rewrite <- (lower_length s1), Hlow, lower_length. by apply iterate_case.
Qed.

Lemma match_end_case p pos s1 s2 :
  Regex.ignorecase p = true -> Str.lower s1 = Str.lower s2 ->
  Regex.match_end p pos s1 = Regex.match_end p pos s2.
Proof.
  intros Hic Hlow. unfold Regex.match_end. rewrite Hic.
  assert (Forall2 same_up_to_case (Regex.run true (Regex.regex p) (pos, s1))
                                  (Regex.run true (Regex.regex p) (pos, s2))) as Hrun.
  { by apply run_case. }
  induction Hrun as [|x y l1 l2 [Hxy _] _ IH]; [done|]. cbn [List.find].
  rewrite Hxy. destruct (pos <? y.1); [by f_equal | exact IH].
Qed.

Lemma sub_from_case p s1 : forall s2 pos skip,
  Regex.ignorecase p = true -> Str.lower s1 = Str.lower s2 ->
  Str.lower (Regex.sub_from p pos skip s1) = Str.lower (Regex.sub_from p pos skip s2).
Proof.
  induction s1 as [|a s1 IH]; intros s2 pos skip Hic Hlow.
  - destruct s2; [done | discriminate].
  - pose proof Hlow as Hlow'.
    apply lower_cons_inv in Hlow as (b & s2' & -> & Hc & Hs).
    cbn [Regex.sub_from]. destruct skip as [|k]; [|by apply IH].
    rewrite (match_end_case p pos _ _ Hic Hlow').
    destruct (Regex.match_end p pos (String b s2')); [by apply IH|].
    simpl. rewrite Hc. f_equal. by apply IH.
Qed.

Lemma lstrip_lower s : Str.lower (Text.lstrip s) = Text.lstrip (Str.lower s).
Proof.
  induction s as [|a s IH]; simpl; [done|]. rewrite is_space_lower.
  by destruct (Str.is_space a).
Qed.

Lemma rstrip_lower s : Str.lower (Text.rstrip s) = Text.rstrip (Str.lower s).
Proof.
  induction s as [|a s IH]; simpl; [done|]. rewrite <- IH, is_space_lower.
  destruct (Text.rstrip s); simpl; [by destruct (Str.is_space a) | done].
Qed.

Lemma strip_lower s : Str.lower (Text.strip s) = Text.strip (Str.lower s).
Proof. unfold Text.strip. by rewrite rstrip_lower, lstrip_lower. Qed.

(** ** The classifier without assumptions on the string store *)

Lemma intern_is_Some hash_string s v :
  is_Some (strings (intern hash_string s v) !! hash_string s).
Proof.
  unfold intern. destruct (strings v !! hash_string s) eqn:Hs.
  - rewrite Hs. eauto.
  - simpl. rewrite lookup_insert_eq. eauto.
Qed.

Lemma intern_keeps_is_Some hash_string s v key :
  is_Some (strings v !! key) -> is_Some (strings (intern hash_string s v) !! key).
Proof. intros [x Hx]. exists x. by apply intern_keeps. Qed.

Lemma Matcher_call_keys matcher sent m :
  m ∈ Matcher_call matcher sent -> m.1.1 ∈ map fst (rules matcher).
Proof.
  unfold Matcher_call. induction (rules matcher) as [|[key pats] rs IH]; simpl.
  - by intros ?%elem_of_nil.
  - intros [Hm|Hm]%elem_of_app.
    + apply list_elem_of_fmap in Hm as ([s e] & -> & _). by left.
    + right. by apply IH.
Qed.

(** Reading back ids that are all in the store succeeds, and leaves the
    store as it is. *)
Lemma mapM_getitem_total (l : list (N * nat * nat)) v :
  (forall m, m ∈ l -> is_Some (strings v !! m.1.1)) ->
  exists r,
    mapM (fun '(match_id, start, stop) =>
            name <- StringStore_getitem match_id ;; ret (name, start, stop)) l v
    = (Ok r, v) /\ (r = [] <-> l = []).
Proof.
  induction l as [|[[key s] e] l IH]; intros Hall.
  - by exists [].
  - destruct (Hall (key, s, e)) as [name Hname]; [by left|].
    destruct IH as (r & Hr & _); [intros m Hm; apply Hall; by right|].
    exists ((name, s, e) :: r). split; [|done].
    cbn [mapM]. unfold bind at 1 2. unfold StringStore_getitem at 1.
    cbn [fst] in Hname. rewrite Hname. unfold ret at 1. unfold bind at 1.
    by rewrite Hr.
Qed.

(** The three results the loop can return. *)
Lemma scan_sents_total matcher ss v :
  (forall key, key ∈ map fst (rules matcher) -> is_Some (strings v !! key)) ->
  exists b label,
    scan_sents matcher ss v = (Ok (b, label), v) /\
    ((b, label) = (true, "STRICT_COMPARISON") \/
     (b, label) = (true, "IMPLICIT_COMPARISON") \/
     (b, label) = (false, "")).
Proof.
  intros Hkeys. induction ss as [|sent rest IH].
  - exists false, "". split; [done | auto].
  - cbn [scan_sents]. unfold bind at 1.
    destruct (mapM_getitem_total (Matcher_call matcher sent) v) as (r & -> & _).
    { intros m Hm. apply Hkeys. by apply Matcher_call_keys in Hm. }
    destruct r as [|m r]; [exact IH|].
    destruct (filter _ (m :: r)).
    + destruct (filter _ (m :: r)); [exact IH|].
      exists true, "IMPLICIT_COMPARISON". split; [done | auto].
    + exists true, "STRICT_COMPARISON". split; [done | auto].
Qed.

(** ** Tokens that start a pattern *)

Lemma comparison_trigger_false token :
  comparison_trigger token = false ->
  may_start strict_patterns token = false /\
  may_start implicit_patterns token = false.
Proof.
  unfold comparison_trigger. rewrite !orb_false_iff, !bool_decide_eq_false.
  intros [[Htag Hlow] Hcmp].
  rewrite !elem_of_cons, elem_of_nil in Htag.
  rewrite !elem_of_cons, elem_of_nil in Hlow.
  assert (Token.lower_ token <> "as") as Has by tauto.
  assert (Token.lower_ token ∉ ["more"; "less"]) as Hml.
  { rewrite !elem_of_cons, elem_of_nil. tauto. }
  assert (Token.tag_ token <> "JJR") as Hjjr by tauto.
  assert (Token.tag_ token <> "RBR") as Hrbr by tauto.
  assert (Token.tag_ token <> "RBS") as Hrbs by tauto.
  assert (Token.tag_ token ∉ ["JJR"; "JJS"]) as Hjj.
  { rewrite !elem_of_cons, elem_of_nil. tauto. }
  unfold may_start, strict_patterns, implicit_patterns, standalone_comparative, spec_ok.
  cbn [existsb tok OP constraints forallb attr_of value_ok].
  rewrite !andb_true_r, Hcmp.
  rewrite (bool_decide_eq_false_2 _ Has), (bool_decide_eq_false_2 _ Hml),
    (bool_decide_eq_false_2 _ Hjjr), (bool_decide_eq_false_2 _ Hrbr),
    (bool_decide_eq_false_2 _ Hrbs), (bool_decide_eq_false_2 _ Hjj).
  split; reflexivity.
Qed.






(** ** The rows collected from the corpus *)



Lemma dict_get_keys {V} (d : list (string * V)) name :
  name ∈ dict_keys d -> is_Some (dict_get name d).
Proof.
  induction d as [|[k f] d IH]; simpl; [by intros ?%elem_of_nil|].
  intros [->|Hin]%elem_of_cons.
  - rewrite bool_decide_eq_true_2 by done. eauto.
  - destruct (bool_decide (k = name)); [eauto | by apply IH].
Qed.

(** * Further properties of [utils.py] *)

(** X1. [detect_comparison] never raises, whatever the vocabulary holds
    and whatever the annotator returns: both labels are interned before
    any match id is read back, so the lookup cannot miss.  The result is
    always one of (true, "STRICT_COMPARISON"), (true,
    "IMPLICIT_COMPARISON") and (false, ""). *)
Theorem detect_comparison_never_raises
    (hash_string : string -> N) (nlp : string -> Vocab -> Doc * Vocab)
    (text : string) (v : Vocab) :
  exists b label,
    result_of (detect_comparison hash_string nlp text) v = Ok (b, label) /\
    ((b, label) = (true, "STRICT_COMPARISON") \/
     (b, label) = (true, "IMPLICIT_COMPARISON") \/
     (b, label) = (false, "")).
Proof.
  unfold result_of, detect_comparison, annotate, Matcher_add, Matcher_new, StringStore_add.
  unfold bind, ret. destruct (nlp text v) as [doc v1]. cbn [rules app].
  set (v2 := intern hash_string "IMPLICIT_COMPARISON"
               (intern hash_string "STRICT_COMPARISON" v1)).
  destruct (scan_sents_total
              (mkMatcher [(hash_string "STRICT_COMPARISON", strict_patterns);
                          (hash_string "IMPLICIT_COMPARISON", implicit_patterns)])
              (sents doc) v2) as (b & label & Hscan & Hclosed).
  { intros key. cbn [rules map fst]. rewrite !elem_of_cons, elem_of_nil.
    intros [->|[->|[]]].
    - apply intern_keeps_is_Some, intern_is_Some.
    - apply intern_is_Some. }
  exists b, label. by rewrite Hscan.
Qed.

(** X2. [detect_comparison] reports no comparison unless some token can
    start a pattern: a token tagged JJR, JJS, RBR or RBS, a token that
    reads "as", "more" or "less" in any capitalization, or the past
    participle of "compare". *)
Theorem detect_comparison_needs_trigger
    (hash_string : string -> N) (nlp : string -> Vocab -> Doc * Vocab)
    (text : string) (v : Vocab) :
  store_ok hash_string v ->
  keeps_store hash_string nlp ->
  collision_free hash_string "STRICT_COMPARISON" ->
  collision_free hash_string "IMPLICIT_COMPARISON" ->
  Forall (fun token => comparison_trigger token = false) (nlp text v).1 ->
  result_of (detect_comparison hash_string nlp text) v = Ok (false, "").
Proof.
  intros Hok Hkeep Hs Hi Hnone. rewrite detect_comparison_result by done.
  rewrite first_label_no_match; [done|].
  eapply Forall_impl; [by apply sents_Forall|]. intros sent Hsent.
  split; apply family_matches_no_start;
    eapply Forall_impl; eauto; intros t Ht; by apply comparison_trigger_false.
Qed.

(** "The sky is blue." has no such token. *)
Lemma detect_comparison_needs_trigger_witness :
  result_of (detect_comparison Samples.hash_string Samples.nlp "The sky is blue.")
            Samples.empty_vocab
  = Ok (false, "").
Proof.
  apply (detect_comparison_needs_trigger Samples.hash_string Samples.nlp
           "The sky is blue." Samples.empty_vocab
           sample_store_ok sample_keeps_store
           (sample_collision_free _) (sample_collision_free _)).
  repeat constructor.
Defined.





(** * Properties of [nuanced_claim_extraction.py] *)





(** X7. Under IGNORECASE the boilerplate is recognised in any
    capitalization: two titles that differ only in the case of their
    letters are stripped alike, and the claims kept differ only in the
    case of their letters. *)
Theorem strip_isitbullshit_ignores_case
    (pattern : Regex.compiled) (text1 text2 : string) :
  Regex.ignorecase pattern = true ->
  Str.lower text1 = Str.lower text2 ->
  Str.lower (strip_isitbullshit pattern text1)
  = Str.lower (strip_isitbullshit pattern text2) /\
  String.length (strip_isitbullshit pattern text1)
  = String.length (strip_isitbullshit pattern text2).
Proof.
  intros Hic Hlow.
  assert (Str.lower (strip_isitbullshit pattern text1)
          = Str.lower (strip_isitbullshit pattern text2)) as Heq.
  { unfold strip_isitbullshit, Regex.sub. rewrite !strip_lower.
    by rewrite (sub_from_case pattern text1 text2 0 0 Hic Hlow). }
  split; [done|]. by rewrite <- (lower_length (strip_isitbullshit pattern text1)), Heq,
    lower_length.
Qed.

(** "IS IT BULLSHIT: Cats purr" and "is it bullshit: cats purr". *)
Lemma strip_isitbullshit_ignores_case_witness :
  Str.lower (strip_isitbullshit title_pattern "IS IT BULLSHIT: Cats purr")
  = Str.lower (strip_isitbullshit title_pattern "is it bullshit: cats purr").
Proof.
  apply (strip_isitbullshit_ignores_case title_pattern
           "IS IT BULLSHIT: Cats purr" "is it bullshit: cats purr");
    reflexivity.
Defined.





(** X10. The lookup of the chosen category cannot miss: the parser
    accepts the keys of the registry and "all" only, a key is always
    found, and "all" selects every entry in the order of the registry.
    With the registry of [utils.py] the accepted values are
    "comparison", "other" and "all". *)
Theorem select_categories_known_key
    {A : Type} (registry : list (string * A)) (category : string) :
  select_categories registry category <> MissingKey /\
  (select_categories registry category = Rejected
   <-> category ∉ dict_keys registry ++ ["all"]) /\
  (category = "all" -> select_categories registry category = Selected registry) /\
  (category ∈ dict_keys registry -> category <> "all" ->
   exists pattern_func,
     dict_get category registry = Some pattern_func /\
     select_categories registry category = Selected [(category, pattern_func)]).
Proof.
  unfold select_categories.
  destruct (bool_decide (category ∈ dict_keys registry ++ ["all"])) eqn:Hin.
  - apply bool_decide_eq_true in Hin.
    destruct (bool_decide (category <> "all")) eqn:Hall.
    + apply bool_decide_eq_true in Hall.
      assert (category ∈ dict_keys registry) as Hkey.
      { apply elem_of_app in Hin as [?|Hin]; [done|].
        by apply list_elem_of_singleton in Hin. }
      destruct (dict_get_keys registry category Hkey) as [f Hf]. rewrite Hf.
      split; [done|]. split; [split; [discriminate | done]|].
      split; [done|]. intros _ _. by exists f.
    + apply bool_decide_eq_false in Hall.
      split; [done|]. split; [split; [discriminate | done]|].
      split; [done|]. intros _ Hne. by destruct Hall.
  - apply bool_decide_eq_false in Hin.
    split; [done|]. split; [done|]. split.
    + intros ->. destruct Hin. apply elem_of_app. right. by left.
    + intros Hkey. destruct Hin. apply elem_of_app. by left.
Qed.

(** The category "comparison" with the registry of [utils.py]. *)
Lemma select_categories_known_key_witness :
  exists pattern_func,
    dict_get "comparison" (CATEGORY_FUNCTIONS Samples.hash_string Samples.nlp)
    = Some pattern_func /\
    select_categories (CATEGORY_FUNCTIONS Samples.hash_string Samples.nlp) "comparison"
    = Selected [("comparison", pattern_func)].
Proof.
  apply (proj2 (proj2 (proj2
    (select_categories_known_key
       (CATEGORY_FUNCTIONS Samples.hash_string Samples.nlp) "comparison")))).
  - by left.
  - discriminate.
Defined.

(** * The validator and the classifier together *)




